(** * A shallow embedding of [orm.py], a minimal object-relational mapper

    The development follows the source file from top to bottom: the two
    gateway functions [sql_run] and [sql_select], the descriptor class
    [Field], the condition classes [Condition] and [BoolCondition], and the
    base class [Model] with its class methods.

    Python state is threaded explicitly.  A [world] holds the module-level
    [counter], the heap of [Model] instances (instances are mutable objects
    that are shared by reference), the state of the sqlite connection and the
    lines printed so far.  A computation either returns or raises, and in both
    cases hands back the world it reached, since a Python exception does not
    roll back side effects.

    Scope of the model.  Declared types are class objects (an annotation such
    as a string or a generic alias makes [issubclass] itself raise and is not
    modelled).  Record classes derive directly from [Model].  Class names are
    ASCII.  Keyword names given to a constructor do not collide with the
    attributes the class itself relies on ([_values], [_cols], [_name]).
    The values that flow through the mapper are [None], booleans, integers,
    strings, field descriptors and references to instances.

    Python keeps the declared fields of a record class in the name space
    that also holds what [Model] itself relies on.  What a declared field
    hides on the class is modelled: a class method hidden by a field cannot
    be called, and a hidden [_name] or [_cols] is a descriptor.  What is
    hidden on an instance is not: [_values] is a component of the instance of
    its own, and [save] reads [_name] and [_cols] as the class has them.
    The statements that depend on it say so in their hypotheses: [plain] for
    a class, [tidy] for an instance, [ordinary] for a name.  In the same
    way [ascii_identifier] marks the names on which [lower] is [str.lower],
    and [printable] the values that [print] writes without calling
    [Model.__repr__], which is not modelled. *)

From Stdlib Require Import ZArith NArith Ascii String.
From stdpp Require Import base option list strings gmap fin_maps pretty.

Local Open Scope string_scope.

(** ** Strings *)

(** [str.lower] on an ASCII code point. *)
Definition ascii_lower (c : ascii) : ascii :=
  let n := nat_of_ascii c in
  if (65 <=? n)%nat && (n <=? 90)%nat then ascii_of_nat (n + 32) else c.

(** [str.lower], on ASCII strings. *)
Fixpoint lower (s : string) : string :=
  match s with
  | EmptyString => EmptyString
  | String c s' => String (ascii_lower c) (lower s')
  end.

(** [sep.join(parts)]. *)
Definition join (sep : string) (parts : list string) : string :=
  String.concat sep parts.

(** ** Classes used as declared types *)

(** A declared type is a class object: either a [Model] subclass, carrying
    what [__init_subclass__] reads from it ([__name__] and
    [__annotations__], in declaration order), or any other class, identified
    by its name ([int], [str], [float], ...).  The annotations are the items
    of a dictionary: their names are distinct.  A class is a finite tree, as
    in Python, where a class body can only mention classes defined before
    it. *)
Inductive pytype : Type :=
| PyClass (name : string)
| PyModel (m : model)
with model : Type :=
| Class (name : string) (annotations : list (string * pytype)).

Definition int : pytype := PyClass "int".
Definition str : pytype := PyClass "str".

Definition __name__ (cls : model) : string :=
  let 'Class n _ := cls in n.

Definition __annotations__ (cls : model) : list (string * pytype) :=
  let 'Class _ a := cls in a.

(** [issubclass(t, Model)]. *)
Definition issubclass_Model (t : pytype) : bool :=
  match t with
  | PyModel _ => true
  | PyClass _ => false
  end.

(** ** Field descriptors, values and objects *)

Record Field : Type := MkField { name : string; py_type : pytype }.

(** Heap addresses of [Model] instances. *)
Definition loc : Type := nat.

Inductive pyval : Type :=
| VNone
| VBool (b : bool)
| VInt (z : Z)
| VStr (s : string)
| VField (f : Field)
| VRef (l : loc).

(** [isinstance(v, int)]; [bool] is a subclass of [int]. *)
Definition isinstance_int (v : pyval) : bool :=
  match v with
  | VBool _ | VInt _ => true
  | _ => false
  end.

(** Truth value of an object, as tested by [if x:].  Descriptors and
    instances define neither [__bool__] nor [__len__], so they are true. *)
Definition truthy (v : pyval) : bool :=
  match v with
  | VNone => false
  | VBool b => b
  | VInt z => negb (z =? 0)%Z
  | VStr s => negb (String.eqb s "")
  | VField _ | VRef _ => true
  end.

(** A dictionary of named statement parameters. *)
Abbreviation params := (gmap string pyval).

(** An instance: its class, the dictionary [_values] and the remaining
    entries of its own attribute dictionary. *)
Record object : Type := Object {
  obj_class : model;
  _values : gmap string pyval;
  __dict__ : gmap string pyval;
}.

(** ** Condition trees *)

Inductive Condition : Type :=
| Cond (op : string) (field : Field) (value : pyval)
| BoolCondition (op : string) (cond1 cond2 : Condition).

(** ** Exceptions and results *)

Inductive exn : Type :=
| StopIteration
| RuntimeError
| KeyError
| AttributeError
| RecursionError
| TypeError
| DatabaseError   (* sqlite3.Error, raised by the connection *)
| Wrong.          (* a heap address that no allocation returned *)

Inductive res (A : Type) : Type :=
| Ok (a : A)
| Raise (e : exn).
Arguments Ok {A} a.
Arguments Raise {A} e.

(** What the two gateway functions print. *)
Inductive event : Type :=
| Running (stmt : string) (values : option params)
| Selecting (stmt : string) (values : option params).

(** A row as [dict(row)] gives it: column names with their values, in column
    order. *)
Abbreviation row := (list (string * pyval)).

(** ** The text of a descriptor *)

(** [Field] defines neither [__repr__] nor [__str__]: a descriptor formatted
    into a text gives what [object.__repr__] gives, the name of its class
    and the address at which the object lies.  [object_repr cls f] is that
    text for the descriptor [f] of the record class [cls]. *)
Class ObjectRepr : Type := object_repr : model → Field → string.

(** ** The world and the gateway *)

Section Orm.

(** The sqlite connection is an external collaborator.  [DB] is the state of
    the database behind [conn].  [db_execute] is [cur.execute] followed by
    [conn.commit()] and a read of [cur.lastrowid]; [db_fetchall] is
    [cur.execute] followed by [cur.fetchall()], each row passed through
    [dict].  Both give [None] when sqlite raises. *)
Context {DB : Type}.
Context (db_execute : DB → string → params → option (DB * pyval)).
Context (db_fetchall : DB → string → params → option (list row)).
Context {Repr : ObjectRepr}.

Record world : Type := World {
  counter : N;              (* the next value of [count()] *)
  heap : list object;       (* the instances allocated so far *)
  conn : DB;
  stdout : list event;
}.

Definition set_counter (n : N) (w : world) : world :=
  World n (heap w) (conn w) (stdout w).

Definition set_heap (h : list object) (w : world) : world :=
  World (counter w) h (conn w) (stdout w).

Definition set_conn (db : DB) (w : world) : world :=
  World (counter w) (heap w) db (stdout w).

Definition set_stdout (out : list event) (w : world) : world :=
  World (counter w) (heap w) (conn w) out.

Definition M (A : Type) : Type := world → res A * world.

#[global] Instance M_ret : MRet M := λ A a w, (Ok a, w).

#[global] Instance M_bind : MBind M := λ A B k m w,
  match m w with
  | (Ok a, w') => k a w'
  | (Raise e, w') => (Raise e, w')
  end.

Definition raise {A : Type} (e : exn) : M A := λ w, (Raise e, w).

(** [for x in xs: body(x)]. *)
Fixpoint for_ {A : Type} (xs : list A) (body : A → M unit) : M unit :=
  match xs with
  | [] => mret tt
  | x :: xs' => body x ;; for_ xs' body
  end.

(** [print(...)] in the gateway functions, as a record of what was asked to
    be printed.  Writing the dictionary of values calls [repr] on each of
    them, which on an instance is [Model.__repr__]: this is [print] on
    values that are not instances. *)
Definition print (e : event) : M unit := λ w,
  (Ok tt, set_stdout (stdout w ++ [e]) w).

(** [next(counter)]. *)
Definition next_counter : M N := λ w,
  (Ok (counter w), set_counter (N.succ (counter w)) w).

(** [values or {}]: an absent or empty dictionary reads as the empty one. *)
Definition or_empty (values : option params) : params :=
  match values with
  | Some d => d
  | None => ∅
  end.

(** [cur.execute(stmt, values)], [conn.commit()] and [cur.lastrowid]. *)
Definition execute (stmt : string) (values : params) : M pyval := λ w,
  match db_execute (conn w) stmt values with
  | Some (db', lastrowid) => (Ok lastrowid, set_conn db' w)
  | None => (Raise DatabaseError, w)
  end.

(** [cur.execute(stmt, values)] and [cur.fetchall()]. *)
Definition fetchall (stmt : string) (values : params) : M (list row) := λ w,
  match db_fetchall (conn w) stmt values with
  | Some rows => (Ok rows, w)
  | None => (Raise DatabaseError, w)
  end.

Definition sql_run (stmt : string) (values : option params) : M pyval :=
  print (Running stmt values) ;;
  execute stmt (or_empty values).

(** [sql_select] is a generator function; this is what runs up to its
    [yield from]: the rows it will yield. *)
Definition sql_select (stmt : string) (values : option params) : M (list row) :=
  print (Selecting stmt values) ;;
  fetchall stmt (or_empty values).

(** ** Heap access *)

Definition load (l : loc) : M object := λ w,
  match heap w !! l with
  | Some o => (Ok o, w)
  | None => (Raise Wrong, w)
  end.

Definition store (l : loc) (o : object) : M unit := λ w,
  (Ok tt, set_heap (<[l := o]> (heap w)) w).

(** [object.__new__(cls)]. *)
Definition alloc (cls : model) : M loc := λ w,
  (Ok (length (heap w)), set_heap (heap w ++ [Object cls ∅ ∅]) w).

(** [d[key]] on a dictionary. *)
Definition getitem (d : gmap string pyval) (key : string) : M pyval :=
  match d !! key with
  | Some v => mret v
  | None => raise KeyError
  end.

(** ** class Field *)

(** [Field.__get__(self, instance, cls)]: [instance] is [None] when the
    attribute is read on the class. *)
Definition Field___get__ (self : Field) (instance : option loc) : M pyval :=
  match instance with
  | Some l => o ← load l; getitem (_values o) (name self)
  | None => mret (VField self)
  end.

Definition Field_sql_type (self : Field) : res string :=
  if issubclass_Model (py_type self) then Ok "INTEGER"
  else
    match py_type self with
    | PyClass c =>
        match list_to_map (M := gmap string string)
                [("int", "INTEGER"); ("str", "TEXT")] !! c with
        | Some t => Ok t
        | None => Raise KeyError
        end
    | PyModel _ => Raise KeyError
    end.

(** The class attribute [id], installed by [__init_subclass__] on every
    record class. *)
Definition Model_id : Field := MkField "id" int.

(** [value.id]: only instances have the attribute. *)
Definition attr_id (v : pyval) : M pyval :=
  match v with
  | VRef l => Field___get__ Model_id (Some l)
  | _ => raise AttributeError
  end.

Definition Field_to_sql (self : Field) (value : pyval) : M pyval :=
  if issubclass_Model (py_type self) then attr_id value
  else mret value.

Definition Field___eq__ (self : Field) (value : pyval) : Condition :=
  Cond "=" self value.

(** ** class Condition, class BoolCondition *)

(** [Condition.__or__]. *)
Definition Condition___or__ (self other : Condition) : Condition :=
  BoolCondition "OR" self other.

(** The parameter name built from a counter value: [f"var{n}"]. *)
Definition placeholder_of (n : N) : string := "var" +:+ pretty n.

(** [to_sql], dispatched on the class of the node: [Condition.to_sql] on a
    comparison, [BoolCondition.to_sql] on a combination. *)
Fixpoint Condition_to_sql (self : Condition) : M (string * params) :=
  match self with
  | Cond op field value =>
      n ← next_counter;
      let placeholder := placeholder_of n in
      mret (name field +:+ " " +:+ op +:+ " :" +:+ placeholder,
            {[ placeholder := value ]})
  | BoolCondition op cond1 cond2 =>
      '(sql1, vals1) ← Condition_to_sql cond1;
      '(sql2, vals2) ← Condition_to_sql cond2;
      mret (sql1 +:+ " " +:+ op +:+ " " +:+ sql2,
            vals2 ∪ vals1)   (* {**vals1, **vals2}: the right side wins *)
  end.

(** ** class Model *)

(** The dictionary [__init_subclass__] builds from the annotations, in
    declaration order. *)
Definition _cols (cls : model) : list (string * Field) :=
  (λ '(name, py_type), (name, MkField name py_type)) <$> __annotations__ cls.

(** The descriptor that attribute lookup finds on the class: the loop of
    [__init_subclass__] installs one per column, over whatever the class
    had under that name, and the final [setattr] installs [id] over
    whatever stands under that name. *)
Definition class_descriptor (cls : model) (key : string) : option Field :=
  if decide (key = "id") then Some Model_id
  else (list_to_map (_cols cls) : gmap string Field) !! key.

(** [cls._name] as the class methods format it into their statements.
    [__init_subclass__] sets it to the class name in lower case followed by
    [s], and then installs the descriptors: on a class with a declared field
    called [_name] the attribute is that descriptor ([Field.__get__] returns
    the descriptor itself when there is no instance), and what is formatted
    is the text of an object. *)
Definition _name (cls : model) : string :=
  match class_descriptor cls "_name" with
  | Some f => object_repr cls f
  | None => lower (__name__ cls) +:+ "s"
  end.

(** A call [cls.method(...)] of a class method of [Model].  On a class with
    a declared field of that name the attribute is the descriptor, and
    calling it raises [TypeError]. *)
Definition classmethod {A : Type} (cls : model) (method : string) (body : M A) : M A :=
  match class_descriptor cls method with
  | Some _ => raise TypeError
  | None => body
  end.

(** A dictionary built from items in order, a later item replacing an
    earlier one under the same key. *)
Definition dict_of_items (items : list (string * pyval)) : gmap string pyval :=
  foldl (λ d '(k, v), <[k := v]> d) ∅ items.

Definition lift {A : Type} (r : res A) : M A := λ w, (r, w).

Definition Model_delete (cls : model) : M unit :=
  classmethod cls "delete"
    (sql_run ("DROP TABLE IF EXISTS " +:+ _name cls) None ;; mret tt).

(** One item of the generator expression in [Model.create]. *)
Definition column_def (col : string * Field) : M string :=
  let '(name, field) := col in
  t ← lift (Field_sql_type field);
  mret (name +:+ " " +:+ t).

(** [cls._cols.items()] fails on a class with a declared field called
    [_cols]: the attribute is then a descriptor, which has no [items]. *)
Definition Model_create (cls : model) : M unit :=
  classmethod cls "create"
    match class_descriptor cls "_cols" with
    | Some _ => raise AttributeError
    | None =>
        defs ← mapM column_def (_cols cls);
        let stmt :=
          "CREATE TABLE " +:+ _name cls +:+ " (id INTEGER PRIMARY KEY, "
            +:+ join ", " defs +:+ ")" in
        sql_run stmt None ;; mret tt
    end.

(** [getattr(self, key)]. *)
Definition getattr (self : loc) (key : string) : M pyval :=
  o ← load self;
  match class_descriptor (obj_class o) key with
  | Some field => Field___get__ field (Some self)
  | None =>
      match __dict__ o !! key with
      | Some v => mret v
      | None => raise AttributeError
      end
  end.

(** [instance._values[key] = value]. *)
Definition setitem_values (instance : loc) (key : string) (value : pyval) : M unit :=
  o ← load instance;
  store instance (Object (obj_class o) (<[key := value]> (_values o)) (__dict__ o)).

Section Dereference.

(** [Field.__set__] calls [Model.select], which constructs an instance, which
    calls [Field.__set__] again for each column.  [dereference py_type value]
    stands for [next(py_type.select(py_type.id == value))] run one level
    further down the call stack; the knot is tied below. *)
Variable dereference : pytype → pyval → M pyval.

Definition Field___set__ (self : Field) (instance : loc) (value : pyval) : M unit :=
  value ← (if issubclass_Model (py_type self) && isinstance_int value
           then dereference (py_type self) value
           else mret value);
  setitem_values instance (name self) value.

(** [setattr(self, key, val)]: through the descriptor when the class has one
    under that name, into the instance's own dictionary otherwise.  The
    dictionary [_values] is kept apart from the other attributes of the
    instance: this is [setattr] on every name but [_values], [__dict__] and
    [__class__]. *)
Definition setattr (self : loc) (key : string) (val : pyval) : M unit :=
  o ← load self;
  match class_descriptor (obj_class o) key with
  | Some field => Field___set__ field self val
  | None =>
      store self (Object (obj_class o) (_values o) (<[key := val]> (__dict__ o)))
  end.

Definition Model___init__ (self : loc) (kwargs : row) : M unit :=
  o ← load self;
  store self (Object (obj_class o) {[ "id" := VNone ]} (__dict__ o)) ;;
  for_ kwargs (λ '(key, val), setattr self key val).

(** A call of the class with keyword arguments: allocation, then
    [__init__].  The keyword [self] collides with the first parameter of
    [__init__], and the call raises [TypeError] before the body runs (the
    object allocated for it is never seen). *)
Definition Model_new (cls : model) (kwargs : row) : M loc :=
  if decide ("self" ∈ kwargs.*1) then raise TypeError
  else
    self ← alloc cls;
    Model___init__ self kwargs ;;
    mret self.

(** A [StopIteration] that escapes the body of a generator reaches the
    caller as a [RuntimeError]. *)
Definition in_generator {A : Type} (body : M A) : M A := λ w,
  match body w with
  | (Raise StopIteration, w') => (Raise RuntimeError, w')
  | r => r
  end.

(** [Model.select] is a generator function.  This is the call
    [cls.select(where)] and the body up to the [for] loop: the rows the loop
    will go through. *)
Definition Model_select_rows (cls : model) (where_ : option Condition) : M (list row) :=
  classmethod cls "select"
    ('(where_sql, values) ← match where_ with
                            | Some c => Condition_to_sql c
                            | None => mret ("1=1", ∅)
                            end;
     let stmt := "SELECT * FROM " +:+ _name cls +:+ " WHERE " +:+ where_sql in
     sql_select stmt (Some values)).

(** [next(cls.select(where))] on a fresh generator: the body runs up to its
    first [yield], or to its end. *)
Definition Model_select_next (cls : model) (where_ : option Condition) : M pyval :=
  rows ← in_generator (Model_select_rows cls where_);
  match rows with
  | [] => raise StopIteration
  | row :: _ =>
      self ← in_generator (Model_new cls row);
      mret (VRef self)
  end.

(** [list(cls.select(where))]. *)
Definition Model_select_list (cls : model) (where_ : option Condition) : M (list pyval) :=
  rows ← in_generator (Model_select_rows cls where_);
  mapM (λ row, self ← in_generator (Model_new cls row); mret (VRef self)) rows.

End Dereference.

(** The knot: [fuel] bounds the depth of nested dereferencing, as the
    interpreter's recursion limit does.  The call is [py_type.select(...)]:
    on a referenced class with a declared field called [select] it raises
    [TypeError], as every call of that class method does. *)
Fixpoint dereference (fuel : nat) (py_type : pytype) (value : pyval) : M pyval :=
  match fuel with
  | O => raise RecursionError
  | S fuel' =>
      match py_type with
      | PyModel cls =>
          Model_select_next (dereference fuel') cls
            (Some (Field___eq__ Model_id value))
      | PyClass _ => raise AttributeError
      end
  end.

(** One item of the dictionary comprehension in [Model.save]. *)
Definition saved_item (self : loc) (col : string * Field) : M (string * pyval) :=
  let '(name, field) := col in
  v ← getattr self name;
  s ← Field_to_sql field v;
  mret (name, s).

(** [self.save()] on an instance through which [save], [_cols] and [_name]
    are found as the class has them. *)
Definition Model_save (fuel : nat) (self : loc) : M unit :=
  o ← load self;
  let cls := obj_class o in
  items ← mapM (saved_item self) (_cols cls);
  let values := dict_of_items items in
  id ← getattr self "id";
  if truthy id then
    let stmt :=
      "UPDATE " +:+ _name cls +:+ " SET "
        +:+ join ", " ((λ col, col.1 +:+ " = :" +:+ col.1) <$> _cols cls)
        +:+ " WHERE id=:id" in
    id ← getattr self "id";
    sql_run stmt (Some (values ∪ {[ "id" := id ]})) ;;
    mret tt
  else
    let stmt :=
      "INSERT INTO " +:+ _name cls +:+ " ("
        +:+ join ", " ((λ col, col.1) <$> _cols cls)
        +:+ ") VALUES ("
        +:+ join ", " ((λ col, ":" +:+ col.1) <$> _cols cls)
        +:+ ")" in
    lastrowid ← sql_run stmt (Some values);
    setattr (dereference fuel) self "id" lastrowid.

End Orm.

(** ** Measures used in the statements *)

(** The literals of the comparisons of a tree, from left to right. *)
Fixpoint leaf_values (c : Condition) : list pyval :=
  match c with
  | Cond _ _ value => [value]
  | BoolCondition _ cond1 cond2 => leaf_values cond1 ++ leaf_values cond2
  end.

(** How deep the references of a record class nest. *)
Fixpoint depth (cls : model) : nat :=
  match cls with
  | Class _ annotations =>
      S (foldr (λ '(_, t) acc,
                  match t with
                  | PyModel cls' => depth cls' `max` acc
                  | PyClass _ => acc
                  end) 0%nat annotations)
  end.

(** The declared types [Field.sql_type] has a column type for, and the
    column type of such a type. *)
Definition supported (t : pytype) : Prop :=
  issubclass_Model t = true ∨ t = int ∨ t = str.

Definition column_type (t : pytype) : string :=
  match t with
  | PyModel _ => "INTEGER"
  | PyClass c => if decide (c = "str") then "TEXT" else "INTEGER"
  end.

(** The query [Field.__set__] issues to resolve an identifier, given the
    counter value it draws, and the world once the query has been printed. *)
Definition select_by_id `{!ObjectRepr} (cls : model) (n : N) : string :=
  "SELECT * FROM " +:+ _name cls +:+ " WHERE id = :" +:+ placeholder_of n.

Definition asked `{!ObjectRepr} {DB : Type} (cls : model) (id : pyval) (w : @world DB) : world :=
  set_stdout
    (stdout w ++ [Selecting (select_by_id cls (counter w))
                    (Some {[ placeholder_of (counter w) := id ]})])
    (set_counter (N.succ (counter w)) w).

(** The store answers a query by identifier on the table of [cls] with rows
    that carry that identifier. *)
Definition answers_with_id `{!ObjectRepr} {DB : Type}
    (db_fetchall : DB → string → params → option (list row))
    (db : DB) (cls : model) (K : Z) : Prop :=
  ∀ n rows r,
    db_fetchall db (select_by_id cls n) {[ placeholder_of n := VInt K ]} = Some rows →
    r ∈ rows → NoDup r.*1 ∧ ("id", VInt K) ∈ r.

(** From [w] to [w']: same connection, and every instance other than [self]
    is as it was. *)
Definition updates {DB : Type} (self : loc) (w w' : @world DB) : Prop :=
  conn w' = conn w ∧
  ∀ l o, l ≠ self → heap w !! l = Some o → heap w' !! l = Some o.

(** From [w] to [w']: same connection, and every instance is as it was. *)
Definition frame {DB : Type} (w w' : @world DB) : Prop :=
  conn w' = conn w ∧ ∀ l o, heap w !! l = Some o → heap w' !! l = Some o.

(** [x] is a reference to an instance of the record class [t], other than
    [self]; when it was resolved from the integer [K] against a store that
    answers by identifier, its [id] is [K]. *)
Definition resolved `{!ObjectRepr} {DB : Type}
    (db_fetchall : DB → string → params → option (list row))
    (self : loc) (t : pytype) (v x : pyval) (w' : @world DB) : Prop :=
  ∃ l o, x = VRef l ∧ l ≠ self ∧ heap w' !! l = Some o ∧
         t = PyModel (obj_class o) ∧
         ∀ K, v = VInt K → answers_with_id db_fetchall (conn w') (obj_class o) K →
              _values o !! "id" = Some (VInt K).

(** What [Field.__set__] leaves under the field's name: the resolved
    instance for an integer given to a reference field, the value itself
    otherwise. *)
Definition stored `{!ObjectRepr} {DB : Type}
    (db_fetchall : DB → string → params → option (list row))
    (self : loc) (f : Field) (v x : pyval) (w' : @world DB) : Prop :=
  if issubclass_Model (py_type f) && isinstance_int v
  then resolved db_fetchall self (py_type f) v x w'
  else x = v.

(** What the lemmas on assignment ask of the call that resolves an
    identifier: when it returns, it returns a reference to an instance
    allocated by the call, of the class asked for, with the identifier asked
    for when the store answers by identifier, and it has left every earlier
    instance as it was. *)
Definition sound `{!ObjectRepr} {DB : Type}
    (db_fetchall : DB → string → params → option (list row))
    (deref : pytype → pyval → M pyval) : Prop :=
  ∀ t v (w : @world DB) x w',
    deref t v w = (Ok x, w') →
    frame w w' ∧
    ∃ l o, x = VRef l ∧ heap w !! l = None ∧ heap w' !! l = Some o ∧
           t = PyModel (obj_class o) ∧
           ∀ K, v = VInt K →
                answers_with_id db_fetchall (conn w') (obj_class o) K →
                _values o !! "id" = Some (VInt K).

(** A computation that leaves the world as it found it. *)
Definition pure {DB : Type} {A : Type} (m : @M DB A) : Prop :=
  ∀ w r w', m w = (r, w') → w' = w.

(** A computation that never moves the counter back, whether it returns or
    raises. *)
Definition never_rewinds {DB : Type} {A : Type} (m : @M DB A) : Prop :=
  ∀ w r w', m w = (r, w') → (counter w ≤ counter w')%N.

(** ** The scope of the statements *)

(** Python has one name space for the fields a record class declares, the
    attributes [Model] keeps on the class and on its instances ([_name],
    [_cols], [_values]), its methods, and the attributes of the object
    protocol ([__init__], [__class__], [__dict__], ...).  An ordinary name
    collides with none of them: it does not begin with an underscore, and
    it is neither the name of a method of [Model] nor [self], the first
    parameter of [__init__]. *)
Definition ordinary (key : string) : bool :=
  match key with
  | String "_" _ => false
  | _ => negb (bool_decide (key ∈ ["create"; "delete"; "save"; "select"; "self"]))
  end.

(** ASCII letters, digits and underscores only, as in the name of a class
    written in ASCII: on such a string [lower] is [str.lower], and the [%]
    of [Model.create] and [Model.save] finds no directive in it. *)
Definition ascii_identifier (s : string) : bool :=
  forallb (λ ch, let n := nat_of_ascii ch in
                 (48 <=? n)%nat && (n <=? 57)%nat
                 || (65 <=? n)%nat && (n <=? 90)%nat
                 || (97 <=? n)%nat && (n <=? 122)%nat
                 || (n =? 95)%nat)
          (list_ascii_of_string s).

(** A record class named by an ASCII identifier whose declared fields have
    ordinary names, all distinct, and so for the classes it refers to. *)
Fixpoint plain (cls : model) : bool :=
  match cls with
  | Class n annotations =>
      ascii_identifier n &&
      bool_decide (NoDup annotations.*1) &&
      forallb (λ '(key, t),
                 ordinary key &&
                 match t with
                 | PyModel cls' => plain cls'
                 | PyClass _ => true
                 end) annotations
  end.

(** An instance of a plain class whose own attributes have ordinary names:
    reading [_name], [_cols] or [save] through it finds what the class
    has. *)
Definition tidy (o : object) : bool :=
  plain (obj_class o) && forallb (λ kv, ordinary kv.1) (map_to_list (__dict__ o)).

(** The values [print] writes without calling [Model.__repr__], which reads
    every declared field of an instance and raises when one is unset. *)
Definition printable (v : pyval) : bool :=
  match v with
  | VRef _ => false
  | _ => true
  end.

(** Referential integrity of the keyword arguments [kwargs] of a record
    class, down to [fuel] levels of references: the keywords have ordinary
    names, all distinct, and for every integer given under a reference
    field, the store answers the query by identifier, whatever token it
    uses, with at least one row, and the first row has integrity down to one
    level less. *)
Fixpoint complete `{!ObjectRepr} {DB : Type}
    (db_fetchall : DB → string → params → option (list row))
    (db : DB) (fuel : nat) (cls : model) (kwargs : row) : Prop :=
  Forall (λ key, ordinary key = true) kwargs.*1 ∧ NoDup kwargs.*1 ∧
  match fuel with
  | O =>
      ∀ key val f, (key, val) ∈ kwargs → class_descriptor cls key = Some f →
                    issubclass_Model (py_type f) && isinstance_int val = false
  | S fuel' =>
      ∀ key val f tgt,
        (key, val) ∈ kwargs → class_descriptor cls key = Some f →
        py_type f = PyModel tgt → isinstance_int val = true →
        ∀ n, ∃ r rest,
          db_fetchall db (select_by_id tgt n) {[ placeholder_of n := val ]}
            = Some (r :: rest) ∧
          complete db_fetchall db fuel' tgt r
  end.

(** ** A small in-memory store, for running the mapper on examples *)

Definition Speaker : model :=
  Class "Speaker" [("name", str); ("company", str)].

Definition Talk : model :=
  Class "Talk" [("title", str); ("duration", int); ("speaker", PyModel Speaker)].

(** The text of every descriptor, had they all been at one address. *)
#[global] Instance demo_repr : ObjectRepr :=
  λ _ _, "<orm.Field object at 0x7f3c5e1d2a90>".

(** Tables by name. *)
Definition demo_db : Type := list (string * list row).

Fixpoint strip_prefix (p s : string) : option string :=
  match p with
  | EmptyString => Some s
  | String a p' =>
      match s with
      | String b s' => if Ascii.eqb a b then strip_prefix p' s' else None
      | EmptyString => None
      end
  end.

(** The text before the first space, and the text after it. *)
Fixpoint until_space (s : string) : string * string :=
  match s with
  | EmptyString => (EmptyString, EmptyString)
  | String c s' =>
      if Ascii.eqb c " " then (EmptyString, s')
      else let '(a, b) := until_space s' in (String c a, b)
  end.

Definition has_id (v : pyval) (r : row) : bool :=
  match (list_to_map r : gmap string pyval) !! "id", v with
  | Some (VInt a), VInt b => (a =? b)%Z
  | _, _ => false
  end.

(** Answers [SELECT * FROM <table> WHERE <predicate>]: the rows with the
    bound identifier when the predicate is [id = :<name>], every row of the
    table for any other predicate. *)
Definition demo_fetchall (db : demo_db) (stmt : string) (values : params)
    : option (list row) :=
  rest ← strip_prefix "SELECT * FROM " stmt;
  let '(table, rest) := until_space rest in
  rows ← (list_to_map db : gmap string (list row)) !! table;
  predicate ← strip_prefix "WHERE " rest;
  match strip_prefix "id = :" predicate with
  | Some p => v ← values !! p; Some (List.filter (has_id v) rows)
  | None => Some rows
  end.

(** Accepts every statement, leaves the tables alone and reports 7 as the
    generated identifier. *)
Definition demo_execute (db : demo_db) (stmt : string) (values : params)
    : option (demo_db * pyval) :=
  Some (db, VInt 7).

Definition jonathan : row :=
  [("id", VInt 1); ("name", VStr "Jonathan"); ("company", VStr "solute")].

Definition demo_tables : demo_db :=
  [("speakers", [jonathan]);
   ("talks", [[("id", VInt 1); ("title", VStr "ORM in 45min");
               ("duration", VInt 60); ("speaker", VInt 1)]])].

Definition demo_world (objects : list object) : world :=
  World 0 objects demo_tables [].

Definition duration : Field := MkField "duration" int.
Definition speaker : Field := MkField "speaker" (PyModel Speaker).

Definition talk_row : row :=
  [("id", VInt 1); ("title", VStr "ORM in 45min");
   ("duration", VInt 60); ("speaker", VInt 1)].

(** A store where two speaker rows carry the same identifier. *)
Definition demo_twins : demo_db :=
  [("speakers",
    [jonathan;
     [("id", VInt 1); ("name", VStr "Jon"); ("company", VStr "solute")]])].

(** A talk that has been allocated and initialised, and nothing else. *)
Definition new_talk : object := Object Talk {[ "id" := VNone ]} ∅.

Definition Price : model := Class "Price" [("amount", PyClass "float")].

(** Record classes with a declared field that hides an attribute of the
    class. *)
Definition Weird : model := Class "Weird" [("_name", str)].
Definition Ledger : model := Class "Ledger" [("_cols", str)].
Definition Job : model := Class "Job" [("create", str)].

(** ** Measures used in the further properties *)

(** The comparisons of a tree, from left to right: the name of the field
    and the operator. *)
Fixpoint leaf_heads (c : Condition) : list (string * string) :=
  match c with
  | Cond op field _ => [(name field, op)]
  | BoolCondition _ cond1 cond2 => leaf_heads cond1 ++ leaf_heads cond2
  end.

(** Every combination in the tree is an [OR], as in every tree built with
    [|]. *)
Fixpoint or_only (c : Condition) : bool :=
  match c with
  | Cond _ _ _ => true
  | BoolCondition op cond1 cond2 =>
      bool_decide (op = "OR") && or_only cond1 && or_only cond2
  end.

(** The texts of comparisons that draw their tokens from [n] on. *)
Definition leaf_texts (n : N) (heads : list (string * string)) : list string :=
  imap (λ i head, head.1 +:+ " " +:+ head.2 +:+ " :"
                    +:+ placeholder_of (n + N.of_nat i)) heads.

(** Whether [Field.__set__] resolves [val] under the attribute [key] of an
    instance of [cls], rather than storing it as given. *)
Definition coerced (cls : model) (key : string) (val : pyval) : bool :=
  match class_descriptor cls key with
  | Some f => issubclass_Model (py_type f) && isinstance_int val
  | None => false
  end.

(** ** More of the in-memory store *)

(** A speaker that has not been saved, and one that has. *)
Definition unsaved_speaker : object :=
  Object Speaker
    {[ "id" := VNone; "name" := VStr "Jonathan"; "company" := VStr "solute" ]} ∅.

Definition saved_speaker : object :=
  Object Speaker
    {[ "id" := VInt 1; "name" := VStr "Jonathan"; "company" := VStr "solute" ]} ∅.

(** A store whose only talk refers to a speaker that is not there. *)
Definition demo_dangling : demo_db :=
  [("speakers", [jonathan]);
   ("talks", [[("id", VInt 1); ("title", VStr "ORM in 45min");
               ("duration", VInt 60); ("speaker", VInt 5)]])].

(** The filter of the demonstration, and a longer chain. *)
Definition sixty_or_fortyfive : Condition :=
  Condition___or__ (Field___eq__ duration (VInt 60))
                   (Field___eq__ duration (VInt 45)).

Definition three_way : Condition :=
  Condition___or__ sixty_or_fortyfive
                   (Field___eq__ (MkField "title" str) (VStr "ORM in 45min")).

(** * Properties of the mapper *)

Section Facts.

Context {DB : Type}.
Context (db_execute : DB → string → params → option (DB * pyval)).
Context (db_fetchall : DB → string → params → option (list row)).
Context {Repr : ObjectRepr}.

Implicit Types (w : @world DB) (c : Condition) (n : N).

(** ** Sequencing *)

Lemma bind_ok {A B : Type} (m : M A) (k : A → M B) w (a : A) w1 :
  m w = (Ok a, w1) → (m ≫= k) w = k a w1.
Proof. intros E. unfold mbind, M_bind. by rewrite E. Qed.

Lemma bind_raise {A B : Type} (m : M A) (k : A → M B) w (e : exn) w1 :
  m w = (Raise e, w1) → (m ≫= k) w = (Raise e, w1).
Proof. intros E. unfold mbind, M_bind. by rewrite E. Qed.

Lemma bind_inv {A B : Type} (m : M A) (k : A → M B) w (r : res B) w' :
  (m ≫= k) w = (r, w') →
  (∃ a w1, m w = (Ok a, w1) ∧ k a w1 = (r, w')) ∨
  (∃ e, m w = (Raise e, w') ∧ r = Raise e).
Proof.
  unfold mbind, M_bind. destruct (m w) as [[a|e] w1]; intros E.
  - left. by exists a, w1.
  - right. exists e. by inversion E.
Qed.

(** ** Hidden attributes *)

Lemma cols_names (cls : model) : (_cols cls).*1 = (__annotations__ cls).*1.
Proof.
  unfold _cols. induction (__annotations__ cls) as [|[n t] anns IH]; [done|].
  simpl. by f_equal.
Qed.

Lemma undeclared_no_descriptor (cls : model) (key : string) :
  key ≠ "id" → key ∉ (__annotations__ cls).*1 → class_descriptor cls key = None.
Proof.
  intros Hid Hk. unfold class_descriptor. rewrite decide_False by done.
  apply not_elem_of_list_to_map_1. by rewrite cols_names.
Qed.

Lemma plain_annotation (cls : model) (key : string) (t : pytype) :
  plain cls = true → (key, t) ∈ __annotations__ cls →
  ordinary key = true ∧
  match t with PyModel cls' => plain cls' = true | PyClass _ => True end.
Proof.
  destruct cls as [n anns]. simpl. intros H Hin.
  apply andb_true_iff in H as [_ H].
  rewrite forallb_forall in H. apply list_elem_of_In, H in Hin.
  apply andb_true_iff in Hin as [Ho Ht]. split; [done|]. by destruct t.
Qed.

Lemma plain_no_descriptor (cls : model) (key : string) :
  plain cls = true → ordinary key = false → key ≠ "id" →
  class_descriptor cls key = None.
Proof.
  intros Hp Ho Hid. apply undeclared_no_descriptor; [done|].
  intros Hin. apply list_elem_of_fmap in Hin as ([k t] & -> & Hin).
  destruct (plain_annotation _ _ _ Hp Hin) as [Hk _]. simpl in Ho. congruence.
Qed.

Lemma plain_reference (cls tgt : model) (key : string) (f : Field) :
  plain cls = true → class_descriptor cls key = Some f →
  py_type f = PyModel tgt → plain tgt = true.
Proof.
  intros Hp. unfold class_descriptor. case_decide as Hk; [by intros [= <-]|].
  intros H Ht. apply elem_of_list_to_map_2 in H. unfold _cols in H.
  apply list_elem_of_fmap in H as ([n t] & E & Hin). injection E as -> ->.
  simpl in Ht. subst t. by destruct (plain_annotation _ _ _ Hp Hin).
Qed.

Lemma classmethod_found {A : Type} (cls : model) (method : string)
    (body : @M DB A) :
  class_descriptor cls method = None → classmethod cls method body = body.
Proof. intros H. unfold classmethod. by rewrite H. Qed.

Lemma classmethod_hidden {A : Type} (cls : model) (method : string)
    (body : @M DB A) (f : Field) w :
  class_descriptor cls method = Some f →
  classmethod cls method body w = (Raise TypeError, w).
Proof. intros H. unfold classmethod. by rewrite H. Qed.

Lemma classmethod_inv {A : Type} (cls : model) (method : string)
    (body : @M DB A) w (r : res A) w' :
  classmethod cls method body w = (r, w') →
  (class_descriptor cls method = None ∧ body w = (r, w')) ∨
  (is_Some (class_descriptor cls method) ∧ r = Raise TypeError ∧ w' = w).
Proof.
  unfold classmethod. destruct (class_descriptor cls method) as [f|].
  - intros [= <- <-]. right. by split; [eexists|].
  - intros E. by left.
Qed.

Lemma classmethod_ok_inv {A : Type} (cls : model) (method : string)
    (body : @M DB A) w (a : A) w' :
  classmethod cls method body w = (Ok a, w') →
  class_descriptor cls method = None ∧ body w = (Ok a, w').
Proof.
  intros E. by apply classmethod_inv in E as [E|(_ & E & _)].
Qed.

(** ** Parameter tokens *)

Lemma placeholder_of_inj n m : placeholder_of n = placeholder_of m → n = m.
Proof.
  unfold placeholder_of. intros E. simpl in E.
  injection E as E. by apply (inj pretty).
Qed.

Lemma set_counter_twice n m w : set_counter n (set_counter m w) = set_counter n w.
Proof. reflexivity. Qed.

Lemma to_sql_leaf op (field : Field) (value : pyval) w :
  Condition_to_sql (Cond op field value) w =
    (Ok (name field +:+ " " +:+ op +:+ " :" +:+ placeholder_of (counter w),
         {[ placeholder_of (counter w) := value ]}),
     set_counter (N.succ (counter w)) w).
Proof. reflexivity. Qed.

(** Lowering always returns; it draws one token per comparison, binds the
    i-th literal under the i-th token drawn, and binds nothing else. *)
Lemma to_sql_spec c : ∀ w,
  ∃ sql vals,
    Condition_to_sql c w =
      (Ok (sql, vals),
       set_counter (counter w + N.of_nat (length (leaf_values c))) w) ∧
    (∀ i v, leaf_values c !! i = Some v →
            vals !! placeholder_of (counter w + N.of_nat i) = Some v) ∧
    (∀ s, is_Some (vals !! s) →
          ∃ i, (i < length (leaf_values c))%nat ∧
               s = placeholder_of (counter w + N.of_nat i)) ∧
    size vals = length (leaf_values c).
Proof.
  induction c as [op f v | op c1 IH1 c2 IH2]; intros w.
  - exists (name f +:+ " " +:+ op +:+ " :" +:+ placeholder_of (counter w)),
      {[ placeholder_of (counter w) := v ]}.
    split; [|split; [|split]].
    + rewrite to_sql_leaf. simpl. by rewrite N.add_1_r.
    + intros [|i] v' Hi; simpl in Hi; [|done].
      injection Hi as <-. simpl. rewrite N.add_0_r. apply lookup_singleton_eq.
    + intros s [x Hx]. apply lookup_singleton_Some in Hx as [<- _].
      exists 0%nat. simpl. split; [lia|]. by rewrite N.add_0_r.
    + apply map_size_singleton.
  - destruct (IH1 w) as (sql1 & vals1 & E1 & L1 & D1 & S1).
    set (w1 := set_counter (counter w + N.of_nat (length (leaf_values c1))) w) in *.
    destruct (IH2 w1) as (sql2 & vals2 & E2 & L2 & D2 & S2).
    assert (Hdisj : ∀ s, is_Some (vals1 !! s) → vals2 !! s = None).
    { intros s H1. destruct (vals2 !! s) eqn:H2; [|done]. exfalso.
      destruct (D1 s H1) as (i & Hi & ->).
      destruct (D2 _ (mk_is_Some _ _ H2)) as (j & _ & Hj).
      apply placeholder_of_inj in Hj. simpl in Hj. lia. }
    exists (sql1 +:+ " " +:+ op +:+ " " +:+ sql2), (vals2 ∪ vals1).
    split; [|split; [|split]].
    + simpl. rewrite (bind_ok _ _ _ _ _ E1). simpl.
      rewrite (bind_ok _ _ _ _ _ E2). simpl.
      unfold mret, M_ret. f_equal. subst w1. rewrite set_counter_twice. simpl.
      f_equal. rewrite length_app. lia.
    + intros i v Hi. simpl in Hi. apply lookup_app_Some in Hi as [Hi | [Hlen Hi]].
      * rewrite lookup_union_r; [by apply L1|].
        apply Hdisj. exists v. by apply L1.
      * apply lookup_union_Some_l. apply L2 in Hi. subst w1. simpl in Hi.
        rewrite <- Hi. f_equal. f_equal. lia.
    + intros s Hs. apply lookup_union_is_Some in Hs as [Hs | Hs].
      * destruct (D2 s Hs) as (j & Hj & ->). subst w1. simpl.
        exists (length (leaf_values c1) + j)%nat. rewrite length_app.
        split; [lia|]. f_equal. lia.
      * destruct (D1 s Hs) as (i & Hi & ->). exists i. simpl.
        rewrite length_app. split; [lia | done].
    + rewrite map_size_disj_union, S1, S2; [simpl; rewrite length_app; lia|].
      apply map_disjoint_spec. intros s x y H2 H1.
      specialize (Hdisj s (mk_is_Some _ _ H1)). congruence.
Qed.

(** Two lowerings, the second started where the first ended or later,
    never bind the same token. *)
Lemma to_sql_later c1 c2 w sql1 vals1 w1 w2 sql2 vals2 w3 :
  Condition_to_sql c1 w = (Ok (sql1, vals1), w1) →
  (counter w1 ≤ counter w2)%N →
  Condition_to_sql c2 w2 = (Ok (sql2, vals2), w3) →
  vals2 ##ₘ vals1.
Proof.
  intros E1 Hle E2.
  destruct (to_sql_spec c1 w) as (? & ? & E1' & _ & D1 & _).
  rewrite E1 in E1'. injection E1' as <- <- ->.
  destruct (to_sql_spec c2 w2) as (? & ? & E2' & _ & D2 & _).
  rewrite E2 in E2'. injection E2' as <- <- ->.
  apply map_disjoint_spec. intros s x y H2 H1.
  destruct (D1 s (mk_is_Some _ _ H1)) as (i & Hi & ->).
  destruct (D2 _ (mk_is_Some _ _ H2)) as (j & _ & Hj).
  apply placeholder_of_inj in Hj. simpl in Hle. lia.
Qed.

(** The two sides of a combination never bind the same token. *)
Lemma to_sql_disjoint c1 c2 w sql1 vals1 w1 sql2 vals2 w2 :
  Condition_to_sql c1 w = (Ok (sql1, vals1), w1) →
  Condition_to_sql c2 w1 = (Ok (sql2, vals2), w2) →
  vals2 ##ₘ vals1.
Proof. intros E1 E2. by apply (to_sql_later c1 c2 w sql1 vals1 w1 w1 sql2 vals2 w2). Qed.

Lemma to_sql_bool op c1 c2 w sql1 vals1 w1 sql2 vals2 w2 :
  Condition_to_sql c1 w = (Ok (sql1, vals1), w1) →
  Condition_to_sql c2 w1 = (Ok (sql2, vals2), w2) →
  Condition_to_sql (BoolCondition op c1 c2) w =
    (Ok (sql1 +:+ " " +:+ op +:+ " " +:+ sql2, vals2 ∪ vals1), w2).
Proof.
  intros E1 E2. simpl.
  rewrite (bind_ok _ _ _ _ _ E1). simpl.
  by rewrite (bind_ok _ _ _ _ _ E2).
Qed.

(** C1.  Lowering a condition tree always returns, and its parameter mapping
    has one entry per comparison of the tree: the i-th literal is bound under
    the i-th token drawn from the counter.  In particular a tree that
    combines two comparisons, on the same field or not, yields exactly two
    keys, and the mapping of a combination contains the mappings of both of
    its sides, its size being the sum of theirs.  A lowering started later,
    the counter being where this one left it or further, binds none of the
    tokens of this one. *)
Theorem to_sql_params_unique c w :
  ∃ sql vals w',
    Condition_to_sql c w = (Ok (sql, vals), w') ∧
    size vals = length (leaf_values c) ∧
    (∀ i v, leaf_values c !! i = Some v →
            vals !! placeholder_of (counter w + N.of_nat i) = Some v) ∧
    (∀ op op1 op2 f g v1 v2,
        c = BoolCondition op (Cond op1 f v1) (Cond op2 g v2) → size vals = 2) ∧
    (∀ op c1 c2, c = BoolCondition op c1 c2 →
        ∃ sql1 vals1 w1 sql2 vals2,
          Condition_to_sql c1 w = (Ok (sql1, vals1), w1) ∧
          Condition_to_sql c2 w1 = (Ok (sql2, vals2), w') ∧
          vals1 ⊆ vals ∧ vals2 ⊆ vals ∧
          size vals = (size vals1 + size vals2)%nat) ∧
    (∀ c' w2 sql' vals' w3,
        (counter w' ≤ counter w2)%N →
        Condition_to_sql c' w2 = (Ok (sql', vals'), w3) → vals' ##ₘ vals).
Proof.
  destruct (to_sql_spec c w) as (sql & vals & E & L & _ & S).
  exists sql, vals, (set_counter (counter w + N.of_nat (length (leaf_values c))) w).
  split; [done|]. split; [done|]. split; [done|]. split; [|split].
  - intros op op1 op2 f g v1 v2 ->. by rewrite S.
  - intros op c1 c2 ->.
    destruct (to_sql_spec c1 w) as (sql1 & vals1 & E1 & _ & _ & S1).
    set (w1 := set_counter (counter w + N.of_nat (length (leaf_values c1))) w) in *.
    destruct (to_sql_spec c2 w1) as (sql2 & vals2 & E2 & _ & _ & S2).
    pose proof (to_sql_disjoint _ _ _ _ _ _ _ _ _ E1 E2) as Hdisj.
    rewrite (to_sql_bool op _ _ _ _ _ _ _ _ _ E1 E2) in E.
    injection E as <- <- Hw.
    exists sql1, vals1, w1, sql2, vals2.
    split; [done|].
    split; [rewrite E2; subst w1; rewrite set_counter_twice; simpl; by rewrite Hw|].
    split; [by apply map_union_subseteq_r|].
    split; [by apply map_union_subseteq_l|].
    rewrite map_size_disj_union by done. lia.
  - intros c' w2 sql' vals' w3 Hle E'.
    exact (to_sql_later c c' w sql vals _ w2 sql' vals' w3 E Hle E').
Qed.

(** C6.  Lowering a comparison draws the next counter value [n], names the
    token [var<n>], and returns the text [<field> <op> :var<n>] with the
    one-entry mapping from that token to the literal.  The counter moves on,
    and no other counter value gives the same token, so the token is unlike
    any drawn before or after: in particular no mapping produced by a
    lowering that ended where this one starts binds it. *)
Theorem to_sql_leaf_fresh op (field : Field) (value : pyval) w :
  let t := placeholder_of (counter w) in
  Condition_to_sql (Cond op field value) w =
    (Ok (name field +:+ " " +:+ op +:+ " :" +:+ t, {[ t := value ]}),
     set_counter (N.succ (counter w)) w) ∧
  size ({[ t := value ]} : params) = 1%nat ∧
  t = "var" +:+ pretty (counter w) ∧
  (∀ m, m ≠ counter w → placeholder_of m ≠ t) ∧
  (∀ c0 w0 sql0 vals0,
     Condition_to_sql c0 w0 = (Ok (sql0, vals0), w) → vals0 !! t = None).
Proof.
  intros t. split; [apply to_sql_leaf|].
  split; [apply map_size_singleton|].
  split; [done|]. split.
  - intros m Hm E. by apply Hm, placeholder_of_inj.
  - intros c0 w0 sql0 vals0 E0.
    pose proof (to_sql_disjoint c0 (Cond op field value) _ _ _ _ _ _ _
                  E0 (to_sql_leaf op field value w)) as Hd.
    rewrite map_disjoint_spec in Hd.
    destruct (vals0 !! t) as [x|] eqn:E; [|done].
    destruct (Hd t value x); [apply lookup_singleton_eq | exact E].
Qed.

(** C2, as the code has it.  Lowering a combination always returns: it
    lowers the left side, then the right side from the counter the left side
    left, and joins the two texts with the operator between single spaces,
    adding no parentheses.  The mapping returned holds exactly the entries
    of both sides. *)
Theorem to_sql_bool_text op c1 c2 w :
  ∃ sql1 vals1 w1 sql2 vals2 w2,
    Condition_to_sql c1 w = (Ok (sql1, vals1), w1) ∧
    Condition_to_sql c2 w1 = (Ok (sql2, vals2), w2) ∧
    Condition_to_sql (BoolCondition op c1 c2) w =
      (Ok (sql1 +:+ " " +:+ op +:+ " " +:+ sql2, vals2 ∪ vals1), w2) ∧
    (∀ k v, (vals2 ∪ vals1) !! k = Some v ↔
            vals1 !! k = Some v ∨ vals2 !! k = Some v).
Proof.
  destruct (to_sql_spec c1 w) as (sql1 & vals1 & E1 & _).
  set (w1 := set_counter (counter w + N.of_nat (length (leaf_values c1))) w) in *.
  destruct (to_sql_spec c2 w1) as (sql2 & vals2 & E2 & _).
  eexists sql1, vals1, w1, sql2, vals2, _.
  split; [exact E1|]. split; [exact E2|].
  split; [exact (to_sql_bool op _ _ _ _ _ _ _ _ _ E1 E2)|].
  intros k v. rewrite lookup_union_Some; [tauto|].
  exact (to_sql_disjoint _ _ _ _ _ _ _ _ _ E1 E2).
Qed.

(** C9.  [f == v] builds the comparison node with operator [=] that holds
    [f] and [v] as they are, whatever [v] is, another descriptor included:
    the operand is kept as the literal of the node and nothing is compared.
    The result is a condition (the type of [Field___eq__] has no boolean in
    it), which lowers to [<name> = :var<n>]. *)
Theorem Field_eq_builds_condition (f : Field) (v : pyval) w :
  Field___eq__ f v = Cond "=" f v ∧
  leaf_values (Field___eq__ f v) = [v] ∧
  (∀ g : Field, Field___eq__ f (VField g) = Cond "=" f (VField g)) ∧
  Condition_to_sql (Field___eq__ f v) w =
    (Ok (name f +:+ " = :" +:+ placeholder_of (counter w),
         {[ placeholder_of (counter w) := v ]}),
     set_counter (N.succ (counter w)) w).
Proof.
  split; [done|]. split; [done|]. split; [done|].
  unfold Field___eq__. by rewrite to_sql_leaf.
Qed.

(** ** Column types and table creation *)

Lemma supported_dec (t : pytype) : supported t ∨ ¬ supported t.
Proof.
  destruct t as [c|m]; [|left; by left].
  destruct (decide (c = "int")) as [->|Hi]; [left; right; by left|].
  destruct (decide (c = "str")) as [->|Hs]; [left; right; by right|].
  right. intros [H|[H|H]]; [done| |]; injection H; done.
Qed.

Lemma sql_type_unsupported (self : Field) :
  ¬ supported (py_type self) → Field_sql_type self = Raise KeyError.
Proof.
  destruct self as [n [c|m]]; intros H; [|destruct H; by left].
  unfold Field_sql_type. simpl.
  rewrite lookup_insert_ne; [|intros <-; apply H; right; by left].
  rewrite lookup_insert_ne; [|intros <-; apply H; right; by right].
  by rewrite lookup_empty.
Qed.

Lemma sql_type_supported (self : Field) :
  supported (py_type self) →
  Field_sql_type self = Ok (column_type (py_type self)).
Proof.
  destruct self as [n t]. intros [H|[H|H]]; simpl in *.
  - by destruct t.
  - by subst t.
  - by subst t.
Qed.

(** C7.  The column type is INTEGER for a reference to a record class and
    for [int], TEXT for [str]; for every other declared type the lookup in
    the table of column types fails with [KeyError]. *)
Theorem sql_type_cases (self : Field) :
  (issubclass_Model (py_type self) = true → Field_sql_type self = Ok "INTEGER") ∧
  (py_type self = int → Field_sql_type self = Ok "INTEGER") ∧
  (py_type self = str → Field_sql_type self = Ok "TEXT") ∧
  (issubclass_Model (py_type self) = false → py_type self ≠ int →
   py_type self ≠ str → Field_sql_type self = Raise KeyError).
Proof.
  split; [|split; [|split]].
  - intros H. rewrite sql_type_supported by (by left). by destruct (py_type self).
  - intros H. rewrite sql_type_supported by (right; by left). by rewrite H.
  - intros H. rewrite sql_type_supported by (right; by right). by rewrite H.
  - intros Hm Hi Hs. apply sql_type_unsupported.
    intros [H|[H|H]]; congruence.
Qed.

Lemma column_def_ok (n : string) (t : pytype) w :
  supported t →
  column_def (n, MkField n t) w = (Ok (n +:+ " " +:+ column_type t), w).
Proof.
  intros H. unfold column_def, lift.
  by rewrite (sql_type_supported (MkField n t) H).
Qed.

Lemma column_def_fail (n : string) (t : pytype) w :
  ¬ supported t → column_def (n, MkField n t) w = (Raise KeyError, w).
Proof.
  intros H. unfold column_def, lift.
  by rewrite (sql_type_unsupported (MkField n t) H).
Qed.

Lemma column_defs_ok (cls : model) w :
  Forall (λ a, supported a.2) (__annotations__ cls) →
  mapM column_def (_cols cls) w =
    (Ok ((λ a, a.1 +:+ " " +:+ column_type a.2) <$> __annotations__ cls), w).
Proof.
  unfold _cols. induction 1 as [|[n t] anns Hx _ IH]; [done|].
  simpl. rewrite (bind_ok _ _ _ _ _ (column_def_ok n t w Hx)).
  by rewrite (bind_ok _ _ _ _ _ IH).
Qed.

Lemma column_defs_fail (cls : model) w :
  Exists (λ a, ¬ supported a.2) (__annotations__ cls) →
  mapM column_def (_cols cls) w = (Raise KeyError, w).
Proof.
  unfold _cols. induction (__annotations__ cls) as [|[n t] anns IH]; intros H.
  - by apply Exists_nil in H.
  - simpl. destruct (supported_dec t) as [Hs|Hs].
    + rewrite (bind_ok _ _ _ _ _ (column_def_ok n t w Hs)).
      apply Exists_cons in H as [H|H]; [done|].
      by rewrite (bind_raise _ _ _ _ _ (IH H)).
    + by rewrite (bind_raise _ _ _ _ _ (column_def_fail n t w Hs)).
Qed.

(** C8, as the code has it.  On a record class that declares no field called [_name],
    [_cols] or [create] (its name being an ASCII identifier, so that [lower]
    is what [str.lower] gives, and its annotations being the items of a
    dictionary), the table name is the class name in lower case
    followed by [s].  When every declared type has a column type, [create]
    runs exactly one statement: CREATE TABLE on that name, [id] as the
    primary key, then one [<field> <type>] item per declared field, in
    declaration order.  When some declared type has none, [create] raises
    [KeyError] and runs nothing. *)
Theorem create_statement (cls : model) w :
  ascii_identifier (__name__ cls) = true →
  NoDup (__annotations__ cls).*1 →
  Forall (λ key, key ∉ (__annotations__ cls).*1) ["_name"; "_cols"; "create"] →
  let stmt :=
    "CREATE TABLE " +:+ _name cls +:+ " (id INTEGER PRIMARY KEY, "
      +:+ join ", " ((λ a, a.1 +:+ " " +:+ column_type a.2) <$> __annotations__ cls)
      +:+ ")" in
  _name cls = lower (__name__ cls) +:+ "s" ∧
  (Forall (λ a, supported a.2) (__annotations__ cls) →
   Model_create db_execute cls w = (sql_run db_execute stmt None ;; mret tt) w ∧
   stdout (Model_create db_execute cls w).2 = (stdout w ++ [Running stmt None])%list) ∧
  (Exists (λ a, ¬ supported a.2) (__annotations__ cls) →
   Model_create db_execute cls w = (Raise KeyError, w)).
Proof.
  intros _ _ Hnames stmt.
  apply Forall_cons in Hnames as [Hname Hnames].
  apply Forall_cons in Hnames as [Hcols Hnames].
  apply Forall_cons in Hnames as [Hcreate _].
  apply undeclared_no_descriptor in Hname; [|done].
  apply undeclared_no_descriptor in Hcols; [|done].
  apply undeclared_no_descriptor in Hcreate; [|done].
  assert (Ebody : Model_create db_execute cls =
            (defs ← mapM column_def (_cols cls);
             sql_run db_execute
               ("CREATE TABLE " +:+ _name cls +:+ " (id INTEGER PRIMARY KEY, "
                  +:+ join ", " defs +:+ ")") None ;; mret tt)).
  { unfold Model_create. rewrite classmethod_found by done. by rewrite Hcols. }
  split; [unfold _name; by rewrite Hname|]. split.
  - intros H. assert (E : Model_create db_execute cls w
                          = (sql_run db_execute stmt None ;; mret tt) w).
    { rewrite Ebody. by rewrite (bind_ok _ _ _ _ _ (column_defs_ok cls w H)). }
    split; [done|]. rewrite E.
    unfold sql_run, print, execute, mbind, M_bind, mret, M_ret. simpl.
    by destruct (db_execute (conn w) stmt ∅) as [[db' v]|].
  - intros H. rewrite Ebody.
    by rewrite (bind_raise _ _ _ _ _ (column_defs_fail cls w H)).
Qed.

(** ** Serialising a field value *)

Lemma Field_get_id (l : loc) (o : object) (i : pyval) w :
  heap w !! l = Some o → _values o !! "id" = Some i →
  Field___get__ Model_id (Some l) w = (Ok i, w).
Proof.
  intros Hl Hi. unfold Field___get__.
  assert (E : load l w = (Ok o, w)) by (unfold load; by rewrite Hl).
  rewrite (bind_ok _ _ _ _ _ E). unfold getitem. simpl. by rewrite Hi.
Qed.

(** C3, as the code has it.  On a field that is not a reference the value
    comes back unchanged.  On a reference field the result is the [id] of
    the instance given, whatever it holds: for an unsaved instance it is
    [None], returned like any other identifier, and nothing is raised. *)
Theorem Field_to_sql_returns_identifier (self : Field) (value : pyval) w :
  (issubclass_Model (py_type self) = false →
   Field_to_sql self value w = (Ok value, w)) ∧
  (issubclass_Model (py_type self) = true →
   ∀ l o i, value = VRef l → heap w !! l = Some o → _values o !! "id" = Some i →
            Field_to_sql self value w = (Ok i, w)).
Proof.
  unfold Field_to_sql. split; intros ->; [done|].
  intros l o i -> Hl Hi. simpl. by eapply Field_get_id.
Qed.

(** ** Heap access and generators *)

Lemma bind_ok_inv {A B : Type} (m : M A) (k : A → M B) w (b : B) w' :
  (m ≫= k) w = (Ok b, w') → ∃ a w1, m w = (Ok a, w1) ∧ k a w1 = (Ok b, w').
Proof.
  intros H. apply bind_inv in H as [(a & w1 & ? & ?)|(e & _ & ?)]; [eauto|done].
Qed.

Lemma load_ok (l : loc) (o : object) w :
  heap w !! l = Some o → load l w = (Ok o, w).
Proof. intros H. unfold load. by rewrite H. Qed.

Lemma setitem_values_ok (instance : loc) (key : string) (value : pyval) (o : object) w :
  heap w !! instance = Some o →
  setitem_values instance key value w =
    (Ok tt,
     set_heap (<[instance := Object (obj_class o) (<[key := value]> (_values o))
                               (__dict__ o)]> (heap w)) w).
Proof.
  intros H. unfold setitem_values. by rewrite (bind_ok _ _ _ _ _ (load_ok _ _ _ H)).
Qed.

Lemma class_descriptor_name (cls : model) (key : string) (f : Field) :
  class_descriptor cls key = Some f → name f = key.
Proof.
  unfold class_descriptor. case_decide as Hk.
  - intros [= <-]. by subst.
  - intros H. apply elem_of_list_to_map_2 in H. unfold _cols in H.
    apply list_elem_of_fmap in H as ([n t] & E & _). by injection E as -> ->.
Qed.

Lemma in_generator_ok {A : Type} (body : M A) w (a : A) w' :
  body w = (Ok a, w') → in_generator body w = (Ok a, w').
Proof. intros E. unfold in_generator. by rewrite E. Qed.

Lemma in_generator_ok_inv {A : Type} (body : M A) w (a : A) w' :
  in_generator body w = (Ok a, w') → body w = (Ok a, w').
Proof.
  unfold in_generator. by destruct (body w) as [[a'|[]] w1].
Qed.

Lemma select_rows_by_id (cls : model) (v : pyval) w :
  class_descriptor cls "select" = None →
  Model_select_rows db_fetchall cls (Some (Field___eq__ Model_id v)) w =
    match db_fetchall (conn w) (select_by_id cls (counter w))
            {[ placeholder_of (counter w) := v ]} with
    | Some rows => (Ok rows, asked cls v w)
    | None => (Raise DatabaseError, asked cls v w)
    end.
Proof.
  intros Hsel. unfold Model_select_rows, Field___eq__.
  rewrite classmethod_found by done.
  rewrite (bind_ok _ _ _ _ _ (to_sql_leaf "=" Model_id v w)).
  unfold sql_select, print, fetchall, mbind, M_bind. simpl.
  fold (select_by_id cls (counter w)).
  by destruct (db_fetchall _ _ _).
Qed.

(** ** Assignment and construction, for any sound resolver *)

Section Assignment.

Variable deref : pytype → pyval → @M DB pyval.

Lemma select_next_empty (cls : model) (v : pyval) w :
  class_descriptor cls "select" = None →
  db_fetchall (conn w) (select_by_id cls (counter w))
    {[ placeholder_of (counter w) := v ]} = Some [] →
  Model_select_next db_fetchall deref cls (Some (Field___eq__ Model_id v)) w =
    (Raise StopIteration, asked cls v w).
Proof.
  intros Hsel H. unfold Model_select_next.
  assert (E : in_generator (Model_select_rows db_fetchall cls
                (Some (Field___eq__ Model_id v))) w = (Ok [], asked cls v w)).
  { apply in_generator_ok. by rewrite select_rows_by_id, H. }
  by rewrite (bind_ok _ _ _ _ _ E).
Qed.

Lemma select_next_first (cls : model) (v : pyval) w (r : row) (rest : list row)
    (self : loc) w' :
  class_descriptor cls "select" = None →
  db_fetchall (conn w) (select_by_id cls (counter w))
    {[ placeholder_of (counter w) := v ]} = Some (r :: rest) →
  Model_new deref cls r (asked cls v w) = (Ok self, w') →
  Model_select_next db_fetchall deref cls (Some (Field___eq__ Model_id v)) w =
    (Ok (VRef self), w').
Proof.
  intros Hsel H Hnew. unfold Model_select_next.
  assert (E : in_generator (Model_select_rows db_fetchall cls
                (Some (Field___eq__ Model_id v))) w = (Ok (r :: rest), asked cls v w)).
  { apply in_generator_ok. by rewrite select_rows_by_id, H. }
  rewrite (bind_ok _ _ _ _ _ E).
  by rewrite (bind_ok _ _ _ _ _ (in_generator_ok _ _ _ _ Hnew)).
Qed.

Lemma select_next_inv (cls : model) (v : pyval) w (x : pyval) w' :
  Model_select_next db_fetchall deref cls (Some (Field___eq__ Model_id v)) w =
    (Ok x, w') →
  ∃ r rest self,
    class_descriptor cls "select" = None ∧
    db_fetchall (conn w) (select_by_id cls (counter w))
      {[ placeholder_of (counter w) := v ]} = Some (r :: rest) ∧
    Model_new deref cls r (asked cls v w) = (Ok self, w') ∧
    x = VRef self.
Proof.
  intros E. unfold Model_select_next in E.
  apply bind_ok_inv in E as (rows & w1 & E1 & E2).
  apply in_generator_ok_inv in E1.
  assert (Hsel : class_descriptor cls "select" = None).
  { unfold Model_select_rows in E1. by apply classmethod_ok_inv in E1 as [? _]. }
  rewrite select_rows_by_id in E1 by done.
  destruct (db_fetchall _ _ _) as [rows'|]; [|done].
  injection E1 as -> <-. destruct rows as [|r rest]; [done|].
  apply bind_ok_inv in E2 as (self & w2 & E2 & E3).
  apply in_generator_ok_inv in E2. injection E3 as <- <-.
  by exists r, rest, self.
Qed.

Hypothesis Hsound : sound db_fetchall deref.

Lemma stored_updates (self : loc) (f : Field) (v x : pyval) w1 w' :
  updates self w1 w' →
  stored db_fetchall self f v x w1 → stored db_fetchall self f v x w'.
Proof.
  intros [Hc Hf]. unfold stored.
  destruct (issubclass_Model (py_type f) && isinstance_int v); [|done].
  intros (l & o & -> & Hne & Hl & Ht & Hid).
  exists l, o. rewrite Hc. eauto 10.
Qed.

Lemma Field_set_spec (f : Field) (self : loc) (v : pyval) (o : object) w w' :
  heap w !! self = Some o →
  Field___set__ deref f self v w = (Ok tt, w') →
  ∃ x, updates self w w' ∧
       heap w' !! self =
         Some (Object (obj_class o) (<[name f := x]> (_values o)) (__dict__ o)) ∧
       stored db_fetchall self f v x w'.
Proof.
  intros Ho E. unfold Field___set__ in E.
  apply bind_ok_inv in E as (x & w1 & E1 & E2).
  unfold stored. destruct (issubclass_Model (py_type f) && isinstance_int v).
  - destruct (Hsound _ _ _ _ _ E1) as ([Hc Hf] & l & t & -> & Hfresh & Hl & Ht & Hid).
    pose proof (Hf _ _ Ho) as Ho1.
    rewrite (setitem_values_ok _ _ _ _ _ Ho1) in E2. injection E2 as <-.
    assert (l ≠ self) by (intros ->; congruence).
    exists (VRef l). split; [|split].
    + split; [done|]. intros l' o' Hne Hl'. simpl.
      rewrite list_lookup_insert_ne by done. by apply Hf.
    + simpl. apply list_lookup_insert_eq. by eapply lookup_lt_Some.
    + exists l, t. simpl. rewrite list_lookup_insert_ne by done. eauto 10.
  - injection E1 as <- <-.
    rewrite (setitem_values_ok _ _ _ _ _ Ho) in E2. injection E2 as <-.
    exists v. split; [|split]; [|simpl|done].
    + split; [done|]. intros l' o' Hne Hl'. simpl.
      by rewrite list_lookup_insert_ne.
    + apply list_lookup_insert_eq. by eapply lookup_lt_Some.
Qed.

Lemma setattr_spec (self : loc) (key : string) (val : pyval) (o : object) w w' :
  heap w !! self = Some o →
  setattr deref self key val w = (Ok tt, w') →
  ∃ o', updates self w w' ∧ heap w' !! self = Some o' ∧
        obj_class o' = obj_class o ∧
        (∀ k, k ≠ key → _values o' !! k = _values o !! k) ∧
        (∀ f, class_descriptor (obj_class o) key = Some f →
              ∃ x, _values o' !! key = Some x ∧
                   stored db_fetchall self f val x w').
Proof.
  intros Ho E. unfold setattr in E.
  rewrite (bind_ok _ _ _ _ _ (load_ok _ _ _ Ho)) in E.
  destruct (class_descriptor (obj_class o) key) as [f|] eqn:Hd.
  - destruct (Field_set_spec _ _ _ _ _ _ Ho E) as (x & Hu & Ho' & Hx).
    pose proof (class_descriptor_name _ _ _ Hd) as Hn. rewrite Hn in Ho'.
    eexists. split; [done|]. split; [exact Ho'|]. split; [done|]. split.
    + intros k Hk. simpl. by rewrite lookup_insert_ne.
    + intros f' [= <-]. exists x. simpl. by rewrite lookup_insert_eq.
  - unfold store in E. injection E as <-.
    eexists. split; [|split; [|split; [|split]]].
    + split; [done|]. intros l' o' Hne Hl'. simpl.
      by rewrite list_lookup_insert_ne.
    + simpl. apply list_lookup_insert_eq. by eapply lookup_lt_Some.
    + done.
    + done.
    + intros f [=].
Qed.

Lemma for_setattr_spec (self : loc) (kwargs : row) : ∀ (o : object) w w',
  heap w !! self = Some o →
  for_ kwargs (λ '(key, val), setattr deref self key val) w = (Ok tt, w') →
  ∃ o', updates self w w' ∧ heap w' !! self = Some o' ∧
        obj_class o' = obj_class o ∧
        (∀ k, k ∉ kwargs.*1 → _values o' !! k = _values o !! k) ∧
        (NoDup kwargs.*1 →
         ∀ k v f, (k, v) ∈ kwargs → class_descriptor (obj_class o) k = Some f →
                  ∃ x, _values o' !! k = Some x ∧
                       stored db_fetchall self f v x w').
Proof.
  induction kwargs as [|[k0 v0] kwargs IH]; intros o w w' Ho E.
  - injection E as <-. exists o. split; [by split|]. split; [done|].
    split; [done|]. split; [done|]. intros _ k v f Hin. by apply elem_of_nil in Hin.
  - simpl in E. apply bind_ok_inv in E as ([] & w1 & E1 & E2).
    destruct (setattr_spec _ _ _ _ _ _ Ho E1) as (o1 & [Hc1 Hf1] & Ho1 & Hcls1 & Hk1 & Hd1).
    destruct (IH _ _ _ Ho1 E2) as (o' & [Hc' Hf'] & Ho' & Hcls' & Hk' & Hd').
    exists o'. split; [|split; [|split; [|split]]].
    + split; [congruence|]. intros l x Hne Hl. by apply Hf', Hf1.
    + done.
    + congruence.
    + intros k Hk. simpl in Hk. apply not_elem_of_cons in Hk as [Hne Hk].
      rewrite Hk' by done. by apply Hk1.
    + intros Hnd k v f Hin Hd. simpl in Hnd. apply NoDup_cons in Hnd as [Hk0 Hnd].
      apply elem_of_cons in Hin as [[= -> ->]|Hin].
      * destruct (Hd1 _ Hd) as (x & Hx & Hs). exists x.
        rewrite (Hk' _ Hk0). split; [done|].
        by apply (stored_updates self f v0 x w1 w').
      * rewrite <- Hcls1 in Hd. by apply (Hd' Hnd k v f).
Qed.

Lemma Model_new_spec (cls : model) (kwargs : row) w (self : loc) w' :
  Model_new deref cls kwargs w = (Ok self, w') →
  self = length (heap w) ∧ frame w w' ∧
  ∃ o', heap w' !! self = Some o' ∧ obj_class o' = cls ∧
        (∀ k, k ∉ kwargs.*1 →
              _values o' !! k = ({[ "id" := VNone ]} : gmap string pyval) !! k) ∧
        (NoDup kwargs.*1 →
         ∀ k v f, (k, v) ∈ kwargs → class_descriptor cls k = Some f →
                  ∃ x, _values o' !! k = Some x ∧
                       stored db_fetchall self f v x w').
Proof.
  intros E. unfold Model_new in E. case_decide as Hkw; [done|].
  apply bind_ok_inv in E as (self' & w1 & E1 & E2).
  unfold alloc in E1. injection E1 as <- <-.
  apply bind_ok_inv in E2 as ([] & w2 & E2 & E3). injection E3 as <- <-.
  set (self := length (heap w)) in *.
  set (w1 := set_heap (heap w ++ [Object cls ∅ ∅]) w) in *.
  assert (H1 : heap w1 !! self = Some (Object cls ∅ ∅))
    by (by apply list_lookup_middle).
  unfold Model___init__ in E2.
  rewrite (bind_ok _ _ _ _ _ (load_ok _ _ _ H1)) in E2.
  apply bind_ok_inv in E2 as ([] & w1' & E2 & E3).
  unfold store in E2. injection E2 as <-. simpl in E3.
  match type of E3 with for_ _ _ ?w0 = _ => set (w1' := w0) in * end.
  assert (H1' : heap w1' !! self = Some (Object cls {[ "id" := VNone ]} ∅)).
  { simpl. apply list_lookup_insert_eq. rewrite length_app. simpl. lia. }
  destruct (for_setattr_spec _ _ _ _ _ H1' E3) as (o' & [Hc Hf] & Ho' & Hcls & Hk & Hd).
  split; [done|]. split.
  - split; [done|]. intros l o Hl. apply Hf.
    + apply lookup_lt_Some in Hl. lia.
    + simpl. rewrite list_lookup_insert_ne by (apply lookup_lt_Some in Hl; lia).
      by apply lookup_app_l_Some.
  - exists o'. by repeat split.
Qed.

Lemma select_next_sound (cls : model) (v : pyval) w (x : pyval) w' :
  Model_select_next db_fetchall deref cls (Some (Field___eq__ Model_id v)) w =
    (Ok x, w') →
  frame w w' ∧
  ∃ l o, x = VRef l ∧ heap w !! l = None ∧ heap w' !! l = Some o ∧
         PyModel cls = PyModel (obj_class o) ∧
         ∀ K, v = VInt K →
              answers_with_id db_fetchall (conn w') (obj_class o) K →
              _values o !! "id" = Some (VInt K).
Proof.
  intros E. apply select_next_inv in E as (r & rest & self & _ & Hrows & Hnew & ->).
  destruct (Model_new_spec _ _ _ _ _ Hnew) as (Hself & [Hc Hf] & o & Ho & Hcls & _ & Hv).
  split; [split; [done|]; intros l o' Hl; by apply Hf|].
  exists self, o. split; [done|]. split; [by apply lookup_ge_None_2; subst|].
  split; [done|]. split; [by subst|].
  intros K -> Hans. rewrite Hc in Hans. simpl in Hans. rewrite Hcls in Hans.
  destruct (Hans _ _ r Hrows) as [Hnd Hin]; [by left|].
  destruct (Hv Hnd "id" (VInt K) Model_id Hin) as (y & Hy & Hs); [done|].
  unfold stored in Hs. simpl in Hs. by subst.
Qed.

End Assignment.

Lemma dereference_sound (fuel : nat) :
  sound db_fetchall (dereference db_fetchall fuel).
Proof.
  induction fuel as [|fuel IH]; intros t v w x w' E; simpl in E; [done|].
  destruct t as [c|cls]; [done|].
  destruct (select_next_sound _ IH _ _ _ _ _ E) as (Hf & l & o & ? & ? & ? & [= ->] & ?).
  split; [done|]. exists l, o. by repeat split.
Qed.


(** ** Assigning to a reference field *)

Lemma Field_set_plain (deref : pytype → pyval → @M DB pyval)
    (f : Field) (instance : loc) (value : pyval) (o : object) w :
  issubclass_Model (py_type f) && isinstance_int value = false →
  heap w !! instance = Some o →
  Field___set__ deref f instance value w =
    (Ok tt,
     set_heap (<[instance := Object (obj_class o) (<[name f := value]> (_values o))
                               (__dict__ o)]> (heap w)) w).
Proof.
  intros Hc Ho. unfold Field___set__. rewrite Hc.
  by rewrite <- (setitem_values_ok _ _ _ _ _ Ho).
Qed.

Lemma Field_set_reference (fuel : nat) (f : Field) (cls : model)
    (instance : loc) (value : pyval) w :
  py_type f = PyModel cls → isinstance_int value = true →
  Field___set__ (dereference db_fetchall (S fuel)) f instance value w =
    (Model_select_next db_fetchall (dereference db_fetchall fuel) cls
       (Some (Field___eq__ Model_id value))
     ≫= λ v, setitem_values instance (name f) v) w.
Proof.
  intros Ht Hi. unfold Field___set__. by rewrite Ht, Hi.
Qed.

Lemma Field_set_missing (fuel : nat) (f : Field) (cls : model)
    (instance : loc) (value : pyval) w :
  py_type f = PyModel cls → isinstance_int value = true →
  class_descriptor cls "select" = None →
  db_fetchall (conn w) (select_by_id cls (counter w))
    {[ placeholder_of (counter w) := value ]} = Some [] →
  Field___set__ (dereference db_fetchall (S fuel)) f instance value w =
    (Raise StopIteration, asked cls value w).
Proof.
  intros Ht Hi Hsel Hrows. rewrite (Field_set_reference _ _ _ _ _ _ Ht Hi).
  by rewrite (bind_raise _ _ _ _ _ (select_next_empty _ _ _ _ Hsel Hrows)).
Qed.

Lemma Field_set_first (fuel : nat) (f : Field) (cls : model)
    (instance : loc) (value : pyval) (o : object) w
    (r : row) (rest : list row) (l : loc) w2 :
  py_type f = PyModel cls → isinstance_int value = true →
  class_descriptor cls "select" = None →
  heap w !! instance = Some o →
  db_fetchall (conn w) (select_by_id cls (counter w))
    {[ placeholder_of (counter w) := value ]} = Some (r :: rest) →
  Model_new (dereference db_fetchall fuel) cls r (asked cls value w) = (Ok l, w2) →
  Field___set__ (dereference db_fetchall (S fuel)) f instance value w =
    (Ok tt,
     set_heap (<[instance := Object (obj_class o) (<[name f := VRef l]> (_values o))
                               (__dict__ o)]> (heap w2)) w2) ∧
  l ≠ instance ∧
  ∃ t, heap w2 !! l = Some t ∧ obj_class t = cls ∧
       ∀ K, value = VInt K → answers_with_id db_fetchall (conn w) cls K →
            _values t !! "id" = Some (VInt K).
Proof.
  intros Ht Hi Hsel Ho Hrows Hnew.
  pose proof (select_next_first _ _ _ _ _ _ _ _ Hsel Hrows Hnew) as E.
  destruct (select_next_sound _ (dereference_sound fuel) _ _ _ _ _ E)
    as ([Hc Hf] & l' & t & [= <-] & Hfresh & Hl & [= Hcls] & Hid).
  split; [|split].
  - rewrite (Field_set_reference _ _ _ _ _ _ Ht Hi).
    rewrite (bind_ok _ _ _ _ _ E).
    by rewrite (setitem_values_ok _ _ _ _ _ (Hf _ _ Ho)).
  - intros ->. congruence.
  - exists t. split; [done|]. split; [done|]. intros K HK Hans.
    apply Hid; [done|]. by rewrite Hc, <- Hcls.
Qed.

(** C10.  On a reference to a plain record class, an integer assigned to
    the reference field of a tidy instance is looked up with one query on
    the table of the referenced class.  When the store answers with no row, the assignment
    raises [StopIteration]; the heap, and with it the value mapping of the
    instance, is as before (the counter has advanced and the query has been
    printed).  When the store answers with several rows, the instance built
    from the first one is stored and the assignment returns; the rows after
    the first play no part. *)
Theorem set_reference_lookup (fuel : nat) (f : Field) (cls : model)
    (instance : loc) (value : pyval) w :
  py_type f = PyModel cls → isinstance_int value = true →
  plain cls = true →
  let deref := dereference db_fetchall (S fuel) in
  let answer :=
    db_fetchall (conn w) (select_by_id cls (counter w))
      {[ placeholder_of (counter w) := value ]} in
  (answer = Some [] →
   ∃ w', Field___set__ deref f instance value w = (Raise StopIteration, w') ∧
         heap w' = heap w ∧
         (_values <$> heap w' !! instance) = (_values <$> heap w !! instance)) ∧
  (∀ r r' rest l w2 o,
     answer = Some (r :: r' :: rest) →
     heap w !! instance = Some o → tidy o = true →
     Model_new (dereference db_fetchall fuel) cls r (asked cls value w) = (Ok l, w2) →
     Field___set__ deref f instance value w =
       (Ok tt,
        set_heap (<[instance := Object (obj_class o) (<[name f := VRef l]> (_values o))
                                  (__dict__ o)]> (heap w2)) w2)).
Proof.
  intros Ht Hi Hp deref answer.
  assert (Hsel : class_descriptor cls "select" = None)
    by (by apply plain_no_descriptor).
  split.
  - intros Hrows. exists (asked cls value w).
    split; [by apply Field_set_missing|]. by split.
  - intros r r' rest l w2 o Hrows Ho _ Hnew.
    by destruct (Field_set_first fuel f cls instance value o w r (r' :: rest) l w2).
Qed.

(** ** Construction returns on a store with referential integrity *)

Section Returns.

Variable deref : pytype → pyval → @M DB pyval.
Hypothesis Hsound : sound db_fetchall deref.

Variable cls : model.
Variable db : DB.
Variable kwargs : row.

Hypothesis Hkw : "self" ∉ kwargs.*1.

(** Every resolution the constructor will ask for returns. *)
Hypothesis Hreturns :
  ∀ key val f w,
    (key, val) ∈ kwargs → class_descriptor cls key = Some f →
    issubclass_Model (py_type f) && isinstance_int val = true →
    conn w = db →
    ∃ x w', deref (py_type f) val w = (Ok x, w').

Lemma setattr_returns (self : loc) (key : string) (val : pyval) (o : object) w :
  (key, val) ∈ kwargs → heap w !! self = Some o → obj_class o = cls →
  conn w = db →
  ∃ w', setattr deref self key val w = (Ok tt, w').
Proof.
  intros Hin Ho Hcls Hdb. unfold setattr.
  rewrite (bind_ok _ _ _ _ _ (load_ok _ _ _ Ho)). rewrite Hcls.
  destruct (class_descriptor cls key) as [f|] eqn:Hd; [|by eexists].
  destruct (issubclass_Model (py_type f) && isinstance_int val) eqn:Hc.
  - destruct (Hreturns key val f w Hin Hd Hc Hdb) as (x & w1 & E).
    destruct (Hsound _ _ _ _ _ E) as ([_ Hf] & _).
    unfold Field___set__. rewrite Hc, (bind_ok _ _ _ _ _ E).
    rewrite (setitem_values_ok _ _ _ _ _ (Hf _ _ Ho)). by eexists.
  - rewrite (Field_set_plain _ _ _ _ _ _ Hc Ho). by eexists.
Qed.

Lemma for_setattr_returns (self : loc) (items : row) : ∀ (o : object) w,
  items ⊆ kwargs → heap w !! self = Some o → obj_class o = cls →
  conn w = db →
  ∃ w', for_ items (λ '(key, val), setattr deref self key val) w = (Ok tt, w').
Proof.
  induction items as [|[k v] items IH]; intros o w Hsub Ho Hcls Hdb.
  - by eexists.
  - destruct (setattr_returns self k v o w) as (w1 & E1); try done.
    { apply Hsub. by left. }
    destruct (setattr_spec _ Hsound _ _ _ _ _ _ Ho E1) as (o1 & [Hc1 _] & Ho1 & Hcls1 & _).
    destruct (IH o1 w1) as (w' & E2); try congruence.
    { intros x Hx. apply Hsub. by right. }
    exists w'. simpl. by rewrite (bind_ok _ _ _ _ _ E1).
Qed.

Lemma Model_new_returns w :
  conn w = db → ∃ self w', Model_new deref cls kwargs w = (Ok self, w').
Proof.
  intros Hdb.
  set (self := length (heap w)).
  set (w1 := set_heap (heap w ++ [Object cls ∅ ∅]) w).
  set (o1 := Object cls {[ "id" := VNone ]} ∅).
  assert (Ea : alloc cls w = (Ok self, w1)) by done.
  assert (H1 : heap w1 !! self = Some (Object cls ∅ ∅))
    by (by apply list_lookup_middle).
  destruct (for_setattr_returns self kwargs o1
              (set_heap (<[self := o1]> (heap w1)) w1)) as (w' & E); try done.
  { simpl. apply list_lookup_insert_eq. rewrite length_app. simpl. lia. }
  assert (Ei : Model___init__ deref self kwargs w1 = (Ok tt, w')).
  { unfold Model___init__. by rewrite (bind_ok _ _ _ _ _ (load_ok _ _ _ H1)). }
  exists self, w'. unfold Model_new. rewrite decide_False by done.
  rewrite (bind_ok _ _ _ _ _ Ea). by rewrite (bind_ok _ _ _ _ _ Ei).
Qed.

End Returns.

(** With referential integrity down to [fuel] levels, [fuel] is enough for
    the constructor of a plain class to return. *)
Lemma Model_new_total (fuel : nat) : ∀ (cls : model) (kwargs : row) w,
  plain cls = true →
  complete db_fetchall (conn w) fuel cls kwargs →
  ∃ self w', Model_new (dereference db_fetchall fuel) cls kwargs w = (Ok self, w').
Proof.
  induction fuel as [|fuel IH]; intros cls kwargs w Hp (Hkw & _ & Hcomplete);
    (assert (Hself : "self" ∉ kwargs.*1)
       by (intros Hin; by apply (proj1 (Forall_forall _ _) Hkw) in Hin)).
  - apply (Model_new_returns _ (dereference_sound 0) cls (conn w) kwargs); [done| |done].
    intros key val f w1 Hin Hd Hc _.
    rewrite (Hcomplete key val f Hin Hd) in Hc. done.
  - apply (Model_new_returns _ (dereference_sound (S fuel)) cls (conn w) kwargs);
      [done| |done].
    intros key val f w1 Hin Hd Hc Hdb.
    apply andb_true_iff in Hc as [Hm Hi].
    destruct (py_type f) as [|tgt] eqn:Ht; [done|].
    destruct (Hcomplete key val f tgt Hin Hd Ht Hi (counter w1))
      as (r & rest & Hrows & Hr).
    rewrite <- Hdb in Hrows.
    pose proof (plain_reference _ _ _ _ Hp Hd Ht) as Hpt.
    destruct (IH tgt r (asked tgt val w1)) as (l & w2 & Hnew);
      [done | by rewrite <- Hdb in Hr |].
    exists (VRef l), w2. simpl.
    apply (select_next_first _ _ _ _ _ _ _ _ (plain_no_descriptor _ "select" Hpt eq_refl ltac:(done)) Hrows Hnew).
Qed.

(** ** Enough fuel *)

Lemma depth_reference (cls tgt : model) (key : string) (f : Field) :
  class_descriptor cls key = Some f → py_type f = PyModel tgt →
  (depth tgt < depth cls)%nat.
Proof.
  unfold class_descriptor. case_decide as Hk; [by intros [= <-]|].
  intros H Ht. apply elem_of_list_to_map_2 in H. unfold _cols in H.
  apply list_elem_of_fmap in H as ([n t] & E & Hin). injection E as -> ->.
  simpl in Ht. subst t. destruct cls as [nm anns]. simpl in *.
  induction anns as [|[n' t'] anns IH]; [by apply elem_of_nil in Hin|].
  apply elem_of_cons in Hin as [[= <- <-]|Hin]; simpl.
  - lia.
  - specialize (IH Hin). destruct t'; lia.
Qed.

Lemma in_generator_recursion_inv {A : Type} (body : @M DB A) w w' :
  in_generator body w = (Raise RecursionError, w') →
  body w = (Raise RecursionError, w').
Proof.
  unfold in_generator. by destruct (body w) as [[a|[]] w1].
Qed.

Section Fuel.

Variable deref : pytype → pyval → @M DB pyval.
Hypothesis Hsound : sound db_fetchall deref.

Variable cls : model.

(** Resolving a reference of [cls] does not run out of stack. *)
Hypothesis Hdeep :
  ∀ key f tgt v w w',
    class_descriptor cls key = Some f → py_type f = PyModel tgt →
    deref (PyModel tgt) v w ≠ (Raise RecursionError, w').

Lemma setattr_enough (self : loc) (key : string) (val : pyval) (o : object) w w' :
  heap w !! self = Some o → obj_class o = cls →
  setattr deref self key val w ≠ (Raise RecursionError, w').
Proof.
  intros Ho Hcls E. unfold setattr in E.
  rewrite (bind_ok _ _ _ _ _ (load_ok _ _ _ Ho)), Hcls in E.
  destruct (class_descriptor cls key) as [f|] eqn:Hd; [|done].
  unfold Field___set__ in E.
  apply bind_inv in E as [(x & w1 & E1 & E2)|(e & E1 & [= <-])].
  - unfold setitem_values in E2.
    apply bind_inv in E2 as [(o1 & w2 & _ & E2)|(e & E2 & [= <-])]; [done|].
    unfold load in E2. by destruct (heap w1 !! self).
  - destruct (issubclass_Model (py_type f) && isinstance_int val) eqn:Hc; [|done].
    apply andb_true_iff in Hc as [Hm _].
    destruct (py_type f) as [|tgt] eqn:Ht; [done|].
    by apply (Hdeep key f tgt val w w').
Qed.

Lemma for_setattr_enough (self : loc) (items : row) : ∀ (o : object) w w',
  heap w !! self = Some o → obj_class o = cls →
  for_ items (λ '(key, val), setattr deref self key val) w
    ≠ (Raise RecursionError, w').
Proof.
  induction items as [|[k v] items IH]; intros o w w' Ho Hcls E; [done|].
  simpl in E. apply bind_inv in E as [([] & w1 & E1 & E2)|(e & E1 & [= <-])].
  - destruct (setattr_spec _ Hsound _ _ _ _ _ _ Ho E1) as (o1 & _ & Ho1 & Hcls1 & _).
    apply (IH o1 w1 w'); congruence.
  - by apply (setattr_enough self k v o w w').
Qed.

Lemma Model_new_enough (kwargs : row) w w' :
  Model_new deref cls kwargs w ≠ (Raise RecursionError, w').
Proof.
  intros E. unfold Model_new in E. case_decide as Hkw; [done|].
  set (self := length (heap w)) in *.
  set (w1 := set_heap (heap w ++ [Object cls ∅ ∅]) w) in *.
  assert (Ea : alloc cls w = (Ok self, w1)) by done.
  rewrite (bind_ok _ _ _ _ _ Ea) in E.
  apply bind_inv in E as [([] & w2 & _ & E)|(e & E & [= <-])]; [done|].
  assert (H1 : heap w1 !! self = Some (Object cls ∅ ∅))
    by (by apply list_lookup_middle).
  unfold Model___init__ in E.
  rewrite (bind_ok _ _ _ _ _ (load_ok _ _ _ H1)) in E.
  apply bind_inv in E as [([] & w1' & E1 & E2)|(e & E1 & _)]; [|done].
  unfold store in E1. injection E1 as <-.
  refine (for_setattr_enough self kwargs (Object cls {[ "id" := VNone ]} ∅)
            _ w' _ eq_refl E2).
  simpl. apply list_lookup_insert_eq. rewrite length_app. simpl. lia.
Qed.

End Fuel.

(** A stack as deep as the references of the class nest is enough: with
    that much fuel resolving an identifier never raises [RecursionError]. *)
Lemma dereference_enough (fuel : nat) : ∀ (tgt : model) (v : pyval) w w',
  (depth tgt ≤ fuel)%nat →
  dereference db_fetchall fuel (PyModel tgt) v w ≠ (Raise RecursionError, w').
Proof.
  induction fuel as [|fuel IH]; intros tgt v w w' Hd E.
  - destruct tgt. simpl in Hd. lia.
  - simpl in E. unfold Model_select_next in E.
    apply bind_inv in E as [(rows & w1 & E1 & E2)|(e & E1 & [= <-])].
    + destruct rows as [|r rest]; [done|].
      apply bind_inv in E2 as [(l & w2 & _ & E2)|(e & E2 & [= <-])]; [done|].
      apply in_generator_recursion_inv in E2.
      apply (Model_new_enough _ (dereference_sound fuel) tgt) in E2; [done|].
      intros key f tgt' v' w0 w0' Hdesc Ht. apply IH.
      pose proof (depth_reference _ _ _ _ Hdesc Ht). lia.
    + apply in_generator_recursion_inv in E1.
      destruct (class_descriptor tgt "select") as [g|] eqn:Hsel.
      * unfold Model_select_rows in E1.
        by rewrite (classmethod_hidden _ _ _ g) in E1.
      * rewrite select_rows_by_id in E1 by done. by destruct (db_fetchall _ _ _).
Qed.

Lemma Model_new_enough_fuel (fuel : nat) (cls : model) (kwargs : row) w w' :
  (depth cls ≤ S fuel)%nat →
  Model_new (dereference db_fetchall fuel) cls kwargs w ≠ (Raise RecursionError, w').
Proof.
  intros Hd. apply (Model_new_enough _ (dereference_sound fuel)).
  intros key f tgt v w0 w0' Hdesc Ht. apply dereference_enough.
  pose proof (depth_reference _ _ _ _ Hdesc Ht). lia.
Qed.

(** C5.  On a tidy instance, assigning an integer to a field that refers
    to a plain record class queries the table of that class for that
    identifier and stores a reference to the instance built from the first
    row, not the integer; any other assignment stores the value given.
    Hence, in an instance of a plain class constructed from a row with
    ordinary column names, a reference column that held the integer [K]
    holds, once the constructor has returned, a reference to an instance of
    the referenced class, whose [id] is [K] when the store answers by
    identifier.  The constructor of a plain class does return when the
    store has a row for every identifier the row refers to. *)
Theorem set_resolves_reference (fuel : nat) w :
  let deref := dereference db_fetchall (S fuel) in
  (∀ f cls instance value o r rest l w2,
     py_type f = PyModel cls → isinstance_int value = true →
     plain cls = true →
     heap w !! instance = Some o → tidy o = true →
     db_fetchall (conn w) (select_by_id cls (counter w))
       {[ placeholder_of (counter w) := value ]} = Some (r :: rest) →
     Model_new (dereference db_fetchall fuel) cls r (asked cls value w) = (Ok l, w2) →
     Field___set__ deref f instance value w =
       (Ok tt,
        set_heap (<[instance := Object (obj_class o) (<[name f := VRef l]> (_values o))
                                  (__dict__ o)]> (heap w2)) w2) ∧
     VRef l ≠ value ∧
     ∃ t, heap w2 !! l = Some t ∧ obj_class t = cls ∧
          ∀ K, value = VInt K → answers_with_id db_fetchall (conn w) cls K →
               _values t !! "id" = Some (VInt K)) ∧
  (∀ f instance value o,
     issubclass_Model (py_type f) && isinstance_int value = false →
     heap w !! instance = Some o → tidy o = true →
     Field___set__ deref f instance value w =
       (Ok tt,
        set_heap (<[instance := Object (obj_class o) (<[name f := value]> (_values o))
                                  (__dict__ o)]> (heap w)) w)) ∧
  (∀ cls kwargs self w' (col : string) K g tgt,
     plain cls = true → Forall (λ key, ordinary key = true) kwargs.*1 →
     Model_new deref cls kwargs w = (Ok self, w') →
     NoDup kwargs.*1 → (col, VInt K) ∈ kwargs →
     class_descriptor cls col = Some g → py_type g = PyModel tgt →
     ∃ o' l t, heap w' !! self = Some o' ∧ _values o' !! col = Some (VRef l) ∧
               heap w' !! l = Some t ∧ obj_class t = tgt ∧
               (answers_with_id db_fetchall (conn w) tgt K →
                _values t !! "id" = Some (VInt K))) ∧
  (∀ cls kwargs,
     plain cls = true →
     complete db_fetchall (conn w) (S fuel) cls kwargs →
     ∃ self w', Model_new deref cls kwargs w = (Ok self, w')).
Proof.
  intros deref. split; [|split; [|split]].
  - intros f cls instance value o r rest l w2 Ht Hi Hp Ho _ Hrows Hnew.
    destruct (Field_set_first fuel f cls instance value o w r rest l w2)
      as (E & _ & Htgt); try done.
    { by apply plain_no_descriptor. }
    split; [done|]. split; [|done]. by destruct value.
  - intros f instance value o Hc Ho _. by apply Field_set_plain.
  - intros cls kwargs self w' col K g tgt _ _ Hnew Hnd Hin Hd Hg.
    destruct (Model_new_spec _ (dereference_sound (S fuel)) _ _ _ _ _ Hnew)
      as (_ & [Hc _] & o' & Ho' & _ & _ & Hv).
    destruct (Hv Hnd col (VInt K) g Hin Hd) as (x & Hx & Hs).
    unfold stored in Hs. rewrite Hg in Hs. simpl in Hs.
    destruct Hs as (l & t & -> & _ & Hl & [= ->] & Hid).
    exists o', l, t. repeat split; try done.
    intros Hans. apply Hid; [done|]. by rewrite Hc.
  - intros cls kwargs. apply Model_new_total.
Qed.

(** ** Saving *)

Lemma pure_bind {A B : Type} (m : @M DB A) (k : A → @M DB B) :
  pure m → (∀ a, pure (k a)) → pure (m ≫= k).
Proof.
  intros Hm Hk w r w' E.
  apply bind_inv in E as [(a & w1 & E1 & E2)|(e & E1 & _)].
  - apply Hm in E1 as ->. by apply Hk in E2.
  - by apply Hm in E1.
Qed.

Lemma pure_load (l : loc) : pure (DB := DB) (load l).
Proof. intros w r w'. unfold load. destruct (heap w !! l); by intros [= _ <-]. Qed.

Lemma pure_getitem (d : gmap string pyval) (key : string) : pure (DB := DB) (getitem d key).
Proof. intros w r w'. unfold getitem. destruct (d !! key); by intros [= _ <-]. Qed.

Lemma pure_Field_get (f : Field) (instance : option loc) : pure (DB := DB) (Field___get__ f instance).
Proof.
  destruct instance as [l|]; simpl.
  - apply pure_bind; [apply pure_load|]. intros o. apply pure_getitem.
  - by intros w r w' [= _ <-].
Qed.

Lemma pure_getattr (self : loc) (key : string) : pure (DB := DB) (getattr self key).
Proof.
  apply pure_bind; [apply pure_load|]. intros o.
  destruct (class_descriptor (obj_class o) key); [apply pure_Field_get|].
  intros w r w'. destruct (__dict__ o !! key); by intros [= _ <-].
Qed.

Lemma pure_Field_to_sql (f : Field) (v : pyval) : pure (DB := DB) (Field_to_sql f v).
Proof.
  unfold Field_to_sql. destruct (issubclass_Model (py_type f)).
  - destruct v as [| | | | |l]; try (by intros w r w' [= _ <-]).
    apply (pure_Field_get Model_id (Some l)).
  - by intros w r w' [= _ <-].
Qed.

Lemma pure_saved_item (self : loc) (col : string * Field) : pure (DB := DB) (saved_item self col).
Proof.
  destruct col as [n f]. apply pure_bind; [apply pure_getattr|]. intros v.
  apply pure_bind; [apply pure_Field_to_sql|]. intros x.
  by intros w r w' [= _ <-].
Qed.

(** Collecting the values to save reads the heap and changes nothing. *)
Lemma pure_saved_items (self : loc) (cols : list (string * Field)) :
  pure (DB := DB) (mapM (saved_item self) cols).
Proof.
  induction cols as [|col cols IH]; [by intros w r w' [= _ <-]|].
  apply pure_bind; [apply pure_saved_item|]. intros x.
  apply pure_bind; [apply IH|]. intros xs. by intros w r w' [= _ <-].
Qed.

Lemma getattr_id (self : loc) (o : object) (i : pyval) w :
  heap w !! self = Some o → _values o !! "id" = Some i →
  getattr self "id" w = (Ok i, w).
Proof.
  intros Ho Hi. unfold getattr.
  rewrite (bind_ok _ _ _ _ _ (load_ok _ _ _ Ho)).
  unfold class_descriptor. rewrite decide_True by done.
  by apply (Field_get_id self o).
Qed.

(** [save] on an instance whose [id] is true: one UPDATE, keyed by [id],
    binding the values of the declared fields and the [id]; the heap is left
    as it was. *)
Lemma Model_save_update (fuel : nat) (self : loc) (o : object)
    (items : list (string * pyval)) (id : pyval) w :
  heap w !! self = Some o →
  mapM (saved_item self) (_cols (obj_class o)) w = (Ok items, w) →
  _values o !! "id" = Some id → truthy id = true →
  let stmt :=
    "UPDATE " +:+ _name (obj_class o) +:+ " SET "
      +:+ join ", " ((λ col, col.1 +:+ " = :" +:+ col.1) <$> _cols (obj_class o))
      +:+ " WHERE id=:id" in
  Model_save db_execute db_fetchall fuel self w =
    (sql_run db_execute stmt (Some (dict_of_items items ∪ {[ "id" := id ]}))
       ;; mret tt) w ∧
  heap (Model_save db_execute db_fetchall fuel self w).2 = heap w.
Proof.
  intros Ho Hitems Hid Ht stmt.
  assert (E : Model_save db_execute db_fetchall fuel self w =
     (sql_run db_execute stmt (Some (dict_of_items items ∪ {[ "id" := id ]}))
        ;; mret tt) w).
  { unfold Model_save. rewrite (bind_ok _ _ _ _ _ (load_ok _ _ _ Ho)).
    rewrite (bind_ok _ _ _ _ _ Hitems).
    rewrite (bind_ok _ _ _ _ _ (getattr_id _ _ _ _ Ho Hid)). rewrite Ht.
    by rewrite (bind_ok _ _ _ _ _ (getattr_id _ _ _ _ Ho Hid)). }
  split; [done|]. rewrite E.
  unfold sql_run, print, execute, mbind, M_bind, mret, M_ret. simpl.
  by destruct (db_execute _ _ _) as [[db' v]|].
Qed.

(** [save] on an instance whose [id] is false: one INSERT over the declared
    fields, after which [id] is what the store reports as generated. *)
Lemma Model_save_insert (fuel : nat) (self : loc) (o : object)
    (items : list (string * pyval)) (id : pyval) w (db' : DB) (lastrowid : pyval) :
  heap w !! self = Some o →
  mapM (saved_item self) (_cols (obj_class o)) w = (Ok items, w) →
  _values o !! "id" = Some id → truthy id = false →
  let stmt :=
    "INSERT INTO " +:+ _name (obj_class o) +:+ " ("
      +:+ join ", " ((λ col, col.1) <$> _cols (obj_class o))
      +:+ ") VALUES ("
      +:+ join ", " ((λ col, ":" +:+ col.1) <$> _cols (obj_class o))
      +:+ ")" in
  db_execute (conn w) stmt (dict_of_items items) = Some (db', lastrowid) →
  Model_save db_execute db_fetchall fuel self w =
    (Ok tt,
     set_heap (<[self := Object (obj_class o) (<["id" := lastrowid]> (_values o))
                           (__dict__ o)]> (heap w))
       (set_conn db'
          (set_stdout (stdout w ++ [Running stmt (Some (dict_of_items items))]) w))).
Proof.
  intros Ho Hitems Hid Ht stmt Hdb.
  unfold Model_save. rewrite (bind_ok _ _ _ _ _ (load_ok _ _ _ Ho)).
  rewrite (bind_ok _ _ _ _ _ Hitems).
  rewrite (bind_ok _ _ _ _ _ (getattr_id _ _ _ _ Ho Hid)). rewrite Ht.
  fold stmt.
  set (w1 := set_conn db'
          (set_stdout (stdout w ++ [Running stmt (Some (dict_of_items items))]) w)).
  assert (E : sql_run db_execute stmt (Some (dict_of_items items)) w = (Ok lastrowid, w1)).
  { unfold sql_run, print, execute, mbind, M_bind. simpl. by rewrite Hdb. }
  rewrite (bind_ok _ _ _ _ _ E).
  assert (Ho1 : heap w1 !! self = Some o) by done.
  unfold setattr. rewrite (bind_ok _ _ _ _ _ (load_ok _ _ _ Ho1)).
  unfold class_descriptor. rewrite decide_True by done.
  by rewrite (Field_set_plain _ Model_id self lastrowid o w1).
Qed.

(** An identifier counts as set when it is true, not when it is not
    [None]: zero is an identifier that [save] takes for unset. *)
Lemma truthy_identifier (z : Z) :
  truthy VNone = false ∧ (truthy (VInt z) = true ↔ z ≠ 0%Z).
Proof.
  split; [done|]. simpl. destruct (Z.eqb_spec z 0); simpl; split; congruence.
Qed.

(** ** The counter only moves forward *)

Lemma nr_bind {A B : Type} (m : @M DB A) (k : A → @M DB B) :
  never_rewinds m → (∀ a, never_rewinds (k a)) → never_rewinds (m ≫= k).
Proof.
  intros Hm Hk w r w' E.
  apply bind_inv in E as [(a & w1 & E1 & E2)|(e & E1 & _)].
  - apply Hm in E1. apply Hk in E2. lia.
  - by apply Hm in E1.
Qed.

Lemma nr_pure {A : Type} (m : @M DB A) : pure m → never_rewinds m.
Proof. intros Hm w r w' E. by rewrite (Hm _ _ _ E). Qed.

Lemma nr_ret {A : Type} (a : A) : never_rewinds (DB := DB) (mret a).
Proof. by intros w r w' [= _ <-]. Qed.

Lemma nr_raise {A : Type} (e : exn) : never_rewinds (DB := DB) (raise (A := A) e).
Proof. by intros w r w' [= _ <-]. Qed.

Lemma nr_store (l : loc) (o : object) : never_rewinds (DB := DB) (store l o).
Proof. by intros w r w' [= _ <-]. Qed.

Lemma nr_to_sql c : never_rewinds (DB := DB) (Condition_to_sql c).
Proof.
  intros w r w' E. destruct (to_sql_spec c w) as (sql & vals & E' & _).
  rewrite E in E'. injection E' as _ ->. simpl. lia.
Qed.

Lemma nr_sql_select (stmt : string) (values : option params) :
  never_rewinds (sql_select db_fetchall stmt values).
Proof.
  intros w r w'. unfold sql_select, print, fetchall, mbind, M_bind. simpl.
  destruct (db_fetchall _ _ _); by intros [= _ <-].
Qed.

Lemma nr_sql_run (stmt : string) (values : option params) :
  never_rewinds (sql_run db_execute stmt values).
Proof.
  intros w r w'. unfold sql_run, print, execute, mbind, M_bind. simpl.
  destruct (db_execute _ _ _) as [[db' v]|]; by intros [= _ <-].
Qed.

Lemma nr_in_generator {A : Type} (body : @M DB A) :
  never_rewinds body → never_rewinds (in_generator body).
Proof.
  intros Hb w r w'. unfold in_generator.
  destruct (body w) as [[a|e] w1] eqn:E; apply Hb in E.
  - by intros [= _ <-].
  - by destruct e; intros [= _ <-].
Qed.

Lemma nr_for {A : Type} (xs : list A) (body : A → @M DB unit) :
  (∀ x, never_rewinds (body x)) → never_rewinds (for_ xs body).
Proof.
  intros Hb. induction xs as [|x xs IH]; [apply nr_ret|].
  apply nr_bind; [apply Hb | by intros _].
Qed.

Lemma nr_mapM {A B : Type} (f : A → @M DB B) (xs : list A) :
  (∀ x, never_rewinds (f x)) → never_rewinds (mapM f xs).
Proof.
  intros Hf. induction xs as [|x xs IH]; [apply nr_ret|].
  apply nr_bind; [apply Hf|]. intros y.
  apply nr_bind; [apply IH|]. intros ys. apply nr_ret.
Qed.

Lemma nr_setitem_values (instance : loc) (key : string) (value : pyval) :
  never_rewinds (DB := DB) (setitem_values instance key value).
Proof.
  apply nr_bind; [apply nr_pure, pure_load|]. intros o. apply nr_store.
Qed.

Lemma nr_classmethod {A : Type} (cls : model) (method : string) (body : @M DB A) :
  never_rewinds body → never_rewinds (classmethod cls method body).
Proof.
  intros H. unfold classmethod.
  destruct (class_descriptor cls method); [apply nr_raise | done].
Qed.

Lemma nr_select_rows (cls : model) (where_ : option Condition) :
  never_rewinds (Model_select_rows db_fetchall cls where_).
Proof.
  apply nr_classmethod, nr_bind.
  - destruct where_; [apply nr_to_sql | apply nr_ret].
  - intros [sql vals]. apply nr_sql_select.
Qed.

Section Forward.

Variable deref : pytype → pyval → @M DB pyval.
Hypothesis Hderef : ∀ t v, never_rewinds (deref t v).

Lemma nr_setattr (self : loc) (key : string) (val : pyval) :
  never_rewinds (setattr deref self key val).
Proof.
  apply nr_bind; [apply nr_pure, pure_load|]. intros o.
  destruct (class_descriptor (obj_class o) key) as [f|]; [|apply nr_store].
  apply nr_bind; [|intros x; apply nr_setitem_values].
  destruct (issubclass_Model (py_type f) && isinstance_int val);
    [apply Hderef | apply nr_ret].
Qed.

Lemma nr_Model_new (cls : model) (kwargs : row) :
  never_rewinds (Model_new deref cls kwargs).
Proof.
  unfold Model_new. case_decide; [apply nr_raise|].
  apply nr_bind; [by intros w r w' [= _ <-]|]. intros self.
  apply nr_bind; [|intros _; apply nr_ret].
  apply nr_bind; [apply nr_pure, pure_load|]. intros o.
  apply nr_bind; [apply nr_store|]. intros _.
  apply nr_for. intros [k v]. apply nr_setattr.
Qed.

Lemma nr_select_next (cls : model) (where_ : option Condition) :
  never_rewinds (Model_select_next db_fetchall deref cls where_).
Proof.
  apply nr_bind; [apply nr_in_generator, nr_select_rows|].
  intros [|r rest]; [apply nr_raise|].
  apply nr_bind; [apply nr_in_generator, nr_Model_new|].
  intros self. apply nr_ret.
Qed.

Lemma nr_select_list (cls : model) (where_ : option Condition) :
  never_rewinds (Model_select_list db_fetchall deref cls where_).
Proof.
  apply nr_bind; [apply nr_in_generator, nr_select_rows|]. intros rows.
  apply nr_mapM. intros r.
  apply nr_bind; [apply nr_in_generator, nr_Model_new|].
  intros self. apply nr_ret.
Qed.

End Forward.

Lemma nr_dereference (fuel : nat) : ∀ t v,
  never_rewinds (dereference db_fetchall fuel t v).
Proof.
  induction fuel as [|fuel IH]; intros t v; [apply nr_raise|].
  destruct t as [c|cls]; [apply nr_raise|]. by apply nr_select_next.
Qed.

(** Nothing the mapper does moves the counter back, so a token drawn once
    is never drawn again. *)
Lemma nr_Model_save (fuel : nat) (self : loc) :
  never_rewinds (Model_save db_execute db_fetchall fuel self).
Proof.
  apply nr_bind; [apply nr_pure, pure_load|]. intros o.
  apply nr_bind; [apply nr_pure, pure_saved_items|]. intros items.
  apply nr_bind; [apply nr_pure, pure_getattr|]. intros id.
  destruct (truthy id).
  - apply nr_bind; [apply nr_pure, pure_getattr|]. intros id'.
    apply nr_bind; [apply nr_sql_run|]. intros _. apply nr_ret.
  - apply nr_bind; [apply nr_sql_run|]. intros r.
    apply nr_setattr, nr_dereference.
Qed.

(** * Further properties *)

(** ** Condition trees *)

Lemma append_assoc (a b c : string) : (a +:+ b) +:+ c = a +:+ (b +:+ c).
Proof.
  induction a as [|x a IH]; [done|].
  change (String x ((a +:+ b) +:+ c) = String x (a +:+ (b +:+ c))).
  by f_equal.
Qed.

(** X1.  The text of a lowered tree does not record how its combinations
    were grouped: [(a op1 b) op2 c] and [a op1 (b op2 c)] lower to the same
    text, the same parameters and the same counter, whatever the operators
    are. *)
Theorem to_sql_grouping_lost op1 op2 (a b : Condition) c w :
  Condition_to_sql (BoolCondition op2 (BoolCondition op1 a b) c) w =
  Condition_to_sql (BoolCondition op1 a (BoolCondition op2 b c)) w.
Proof.
  destruct (to_sql_spec a w) as (sa & va & Ea & _).
  set (w1 := set_counter (counter w + N.of_nat (length (leaf_values a))) w) in *.
  destruct (to_sql_spec b w1) as (sb & vb & Eb & _).
  set (w2 := set_counter (counter w1 + N.of_nat (length (leaf_values b))) w1) in *.
  destruct (to_sql_spec c w2) as (sc & vc & Ec & _).
  rewrite (to_sql_bool op2 _ _ _ _ _ _ _ _ _ (to_sql_bool op1 _ _ _ _ _ _ _ _ _ Ea Eb) Ec).
  rewrite (to_sql_bool op1 _ _ _ _ _ _ _ _ _ Ea (to_sql_bool op2 _ _ _ _ _ _ _ _ _ Eb Ec)).
  f_equal. f_equal. f_equal.
  - rewrite !append_assoc. done.
  - by rewrite (assoc_L (∪)).
Qed.

Lemma join_app (sep : string) (l1 l2 : list string) :
  l1 ≠ [] → l2 ≠ [] →
  join sep (l1 ++ l2) = join sep l1 +:+ sep +:+ join sep l2.
Proof.
  intros H1 H2. induction l1 as [|x l1 IH]; [done|].
  destruct l1 as [|y l1].
  - simpl. by destruct l2.
  - change (join sep ((x :: y :: l1) ++ l2))
      with (x +:+ sep +:+ join sep ((y :: l1) ++ l2)).
    rewrite IH by done.
    change (join sep (x :: y :: l1)) with (x +:+ sep +:+ join sep (y :: l1)).
    by rewrite !append_assoc.
Qed.

Lemma leaf_heads_length c : length (leaf_heads c) = length (leaf_values c).
Proof.
  induction c as [|op c1 IH1 c2 IH2]; [done|].
  simpl. rewrite !length_app. lia.
Qed.

Lemma leaf_heads_nonempty c : leaf_heads c ≠ [].
Proof.
  induction c as [|op c1 IH1 c2 IH2]; [done|].
  simpl. intros E. by apply app_eq_nil in E as [E _].
Qed.

(** X2.  A tree built from comparisons with [|] lowers to the texts of its
    comparisons, in order from left to right, separated by [ OR ]; the i-th
    comparison reads [<field> <op> :var<n+i>], [n] being the counter at the
    start. *)
Theorem to_sql_or_chain c : ∀ w,
  or_only c = true →
  ∃ vals w',
    Condition_to_sql c w =
      (Ok (join " OR " (leaf_texts (counter w) (leaf_heads c)), vals), w').
Proof.
  induction c as [op f v | op c1 IH1 c2 IH2]; intros w Hor.
  - eexists _, _. rewrite to_sql_leaf. unfold leaf_texts. simpl.
    by rewrite N.add_0_r.
  - simpl in Hor. apply andb_true_iff in Hor as [Hor H2].
    apply andb_true_iff in Hor as [Hop H1]. apply bool_decide_eq_true in Hop as ->.
    destruct (IH1 w H1) as (vals1 & w1 & E1).
    destruct (to_sql_spec c1 w) as (? & ? & E1' & _). rewrite E1 in E1'.
    injection E1' as _ _ Hw1.
    destruct (IH2 w1 H2) as (vals2 & w2 & E2).
    exists (vals2 ∪ vals1), w2.
    rewrite (to_sql_bool "OR" _ _ _ _ _ _ _ _ _ E1 E2). do 2 f_equal.
    simpl leaf_heads. unfold leaf_texts at 3. rewrite imap_app.
    rewrite join_app.
    + replace (imap _ (leaf_heads c2))
        with (leaf_texts (counter w1) (leaf_heads c2)); [reflexivity|].
      unfold leaf_texts. apply imap_ext.
      intros i [nm o] _. simpl. do 5 f_equal. rewrite Hw1. simpl.
      rewrite leaf_heads_length. lia.
    + pose proof (leaf_heads_nonempty c1) as Hn. intros E.
      apply (f_equal length) in E. rewrite length_imap in E.
      by destruct (leaf_heads c1).
    + pose proof (leaf_heads_nonempty c2) as Hn. intros E.
      apply (f_equal length) in E. rewrite length_imap in E.
      by destruct (leaf_heads c2).
Qed.

(** ** The statements of [select] *)


(** X4.  On a plain record class: without a filter, [select] asks for
    [WHERE 1=1], binds no parameter and draws no token.  With a filter whose
    literals are printable it asks for the lowered text, binds the lowered
    parameters, one per comparison of the filter, and leaves the counter
    that many values further.  Either way it prints the statement once,
    returns the rows the store answers with, and raises when the store
    does. *)
Theorem select_statement (cls : model) w :
  plain cls = true →
  let answer stmt vals w1 :=
    (match db_fetchall (conn w) stmt vals with
     | Some rows => Ok rows
     | None => Raise DatabaseError
     end,
     set_stdout (stdout w ++ [Selecting stmt (Some vals)]) w1) in
  Model_select_rows db_fetchall cls None w =
    answer ("SELECT * FROM " +:+ _name cls +:+ " WHERE 1=1") ∅ w ∧
  ∀ c, Forall (λ v, printable v = true) (leaf_values c) →
    ∃ sql vals,
      Condition_to_sql c w =
        (Ok (sql, vals),
         set_counter (counter w + N.of_nat (length (leaf_values c))) w) ∧
      size vals = length (leaf_values c) ∧
      Model_select_rows db_fetchall cls (Some c) w =
        answer ("SELECT * FROM " +:+ _name cls +:+ " WHERE " +:+ sql) vals
          (set_counter (counter w + N.of_nat (length (leaf_values c))) w).
Proof.
  intros Hp answer.
  assert (Hsel : class_descriptor cls "select" = None)
    by (by apply plain_no_descriptor).
  split.
  - unfold Model_select_rows. rewrite classmethod_found by done.
    unfold sql_select, print, fetchall, mbind, M_bind, mret, M_ret.
    simpl. unfold answer. by destruct (db_fetchall _ _ _).
  - intros c _. destruct (to_sql_spec c w) as (sql & vals & Ec & _ & _ & Hsize).
    exists sql, vals. split; [done|]. split; [done|].
    unfold Model_select_rows. rewrite classmethod_found by done.
    rewrite (bind_ok _ _ _ _ _ Ec).
    unfold sql_select, print, fetchall, mbind, M_bind. simpl.
    unfold answer. by destruct (db_fetchall _ _ _).
Qed.

(** ** Selecting instances *)

Lemma in_generator_no_stop {A : Type} (body : @M DB A) w w' :
  in_generator body w ≠ (Raise StopIteration, w').
Proof. unfold in_generator. by destruct (body w) as [[a|[]] w1]. Qed.

Lemma in_generator_stop {A : Type} (body : @M DB A) w w' :
  body w = (Raise StopIteration, w') →
  in_generator body w = (Raise RuntimeError, w').
Proof. intros E. unfold in_generator. by rewrite E. Qed.

Section Hydration.

Variable deref : pytype → pyval → @M DB pyval.
Variable cls : model.

(** The loop of [select], run to its end. *)
Let hydrate (r : row) : @M DB pyval :=
  self ← in_generator (Model_new deref cls r); mret (VRef self).

Lemma hydrate_all_no_stop (rows : list row) : ∀ w w',
  mapM hydrate rows w ≠ (Raise StopIteration, w').
Proof.
  induction rows as [|r rows IH]; intros w w' E; [done|].
  simpl in E. apply bind_inv in E as [(x & w1 & E1 & E2)|(e & E1 & [= <-])].
  - apply bind_inv in E2 as [(xs & w2 & E2 & E3)|(e & E2 & [= <-])]; [done|].
    by apply IH in E2.
  - unfold hydrate in E1.
    apply bind_inv in E1 as [(l & w1 & _ & E1)|(e & E1 & [= <-])]; [done|].
    by apply in_generator_no_stop in E1.
Qed.

Hypothesis Hsound : sound db_fetchall deref.


End Hydration.


(** X6.  [select] never lets a [StopIteration] out of its body.  Advancing
    it once raises [StopIteration] only when the store answered with no
    row; a [StopIteration] raised while an instance is being constructed
    from a row (a reference to a row that is not there) comes out as
    [RuntimeError], from [next] and from [list] alike. *)
Theorem select_stop_iteration (deref : pytype → pyval → @M DB pyval)
    (cls : model) (where_ : option Condition) w :
  (∀ w', Model_select_list db_fetchall deref cls where_ w
           ≠ (Raise StopIteration, w')) ∧
  (∀ w', Model_select_next db_fetchall deref cls where_ w
           = (Raise StopIteration, w') →
         Model_select_rows db_fetchall cls where_ w = (Ok [], w')) ∧
  (∀ r rest w1 w2,
     Model_select_rows db_fetchall cls where_ w = (Ok (r :: rest), w1) →
     Model_new deref cls r w1 = (Raise StopIteration, w2) →
     Model_select_next db_fetchall deref cls where_ w = (Raise RuntimeError, w2) ∧
     Model_select_list db_fetchall deref cls where_ w = (Raise RuntimeError, w2)).
Proof.
  split; [|split].
  - intros w' E. unfold Model_select_list in E.
    apply bind_inv in E as [(rows & w1 & _ & E)|(e & E & [= <-])].
    + by apply hydrate_all_no_stop in E.
    + by apply in_generator_no_stop in E.
  - intros w' E. unfold Model_select_next in E.
    apply bind_inv in E as [(rows & w1 & E1 & E)|(e & E & [= <-])].
    + apply in_generator_ok_inv in E1. destruct rows as [|r rest].
      * by injection E as <-.
      * apply bind_inv in E as [(l & w2 & _ & E)|(e & E & [= <-])]; [done|].
        by apply in_generator_no_stop in E.
    + by apply in_generator_no_stop in E.
  - intros r rest w1 w2 Erows Enew.
    pose proof (in_generator_ok _ _ _ _ Erows) as E1.
    pose proof (in_generator_stop _ _ _ Enew) as E2.
    split.
    + unfold Model_select_next. rewrite (bind_ok _ _ _ _ _ E1).
      by rewrite (bind_raise _ _ _ _ _ E2).
    + unfold Model_select_list. rewrite (bind_ok _ _ _ _ _ E1). simpl.
      rewrite (bind_raise _ _ _ _ _ (bind_raise _ _ _ _ _ E2)). done.
Qed.

(** ** Reading and assigning attributes *)

Lemma getattr_descriptor (self : loc) (key : string) (o : object) (f : Field) w :
  heap w !! self = Some o → class_descriptor (obj_class o) key = Some f →
  getattr self key w =
    (match _values o !! key with
     | Some v => Ok v
     | None => Raise KeyError
     end, w).
Proof.
  intros Ho Hd. unfold getattr.
  rewrite (bind_ok _ _ _ _ _ (load_ok _ _ _ Ho)), Hd. unfold Field___get__.
  rewrite (bind_ok _ _ _ _ _ (load_ok _ _ _ Ho)).
  rewrite (class_descriptor_name _ _ _ Hd). unfold getitem.
  by destruct (_values o !! key).
Qed.

Lemma getattr_plain (self : loc) (key : string) (o : object) w :
  heap w !! self = Some o → class_descriptor (obj_class o) key = None →
  getattr self key w =
    (match __dict__ o !! key with
     | Some v => Ok v
     | None => Raise AttributeError
     end, w).
Proof.
  intros Ho Hd. unfold getattr.
  rewrite (bind_ok _ _ _ _ _ (load_ok _ _ _ Ho)), Hd.
  by destruct (__dict__ o !! key).
Qed.

(** The result of [getattr] depends on the class of the instance and on the
    entries of its two dictionaries under the name read. *)
Lemma getattr_same (self : loc) (key : string) (o o' : object) w w' :
  heap w !! self = Some o → heap w' !! self = Some o' →
  obj_class o' = obj_class o →
  _values o' !! key = _values o !! key →
  __dict__ o' !! key = __dict__ o !! key →
  (getattr self key w').1 = (getattr self key w).1.
Proof.
  intros Ho Ho' Hcls Hv Hd.
  destruct (class_descriptor (obj_class o) key) as [f|] eqn:E.
  - rewrite (getattr_descriptor _ _ _ f _ Ho E).
    rewrite (getattr_descriptor _ _ o' f _ Ho') by (by rewrite Hcls).
    by rewrite Hv.
  - rewrite (getattr_plain _ _ _ _ Ho E).
    rewrite (getattr_plain _ _ o' _ Ho') by (by rewrite Hcls).
    by rewrite Hd.
Qed.

(** X7.  On a tidy instance, after an assignment to an attribute with an
    ordinary name has returned, reading the same attribute gives a value
    back: the value assigned, unless it was an integer assigned to a
    reference field.  Reading any other attribute with an ordinary name
    gives what it gave before, and no other instance has changed. *)
Theorem setattr_then_getattr (fuel : nat) (self : loc) (key : string)
    (val : pyval) (o : object) w w' :
  heap w !! self = Some o →
  tidy o = true → ordinary key = true →
  setattr (dereference db_fetchall fuel) self key val w = (Ok tt, w') →
  ∃ x, getattr self key w' = (Ok x, w') ∧
       (coerced (obj_class o) key val = false → x = val) ∧
       (∀ key', ordinary key' = true → key' ≠ key →
                (getattr self key' w').1 = (getattr self key' w).1) ∧
       updates self w w'.
Proof.
  intros Ho _ _ E. unfold coerced.
  destruct (class_descriptor (obj_class o) key) as [f|] eqn:Hd.
  - unfold setattr in E.
    rewrite (bind_ok _ _ _ _ _ (load_ok _ _ _ Ho)), Hd in E.
    destruct (Field_set_spec _ (dereference_sound fuel) _ _ _ _ _ _ Ho E)
      as (x & Hu & Ho' & Hx).
    rewrite (class_descriptor_name _ _ _ Hd) in Ho'.
    exists x. split; [|split; [|split]].
    + rewrite (getattr_descriptor _ _ _ f _ Ho') by done.
      simpl. by rewrite lookup_insert_eq.
    + intros Hc. unfold stored in Hx. by rewrite Hc in Hx.
    + intros key' _ Hne. apply (getattr_same self key' o _ w w' Ho Ho'); [done| |done].
      simpl. by rewrite lookup_insert_ne.
    + done.
  - unfold setattr in E.
    rewrite (bind_ok _ _ _ _ _ (load_ok _ _ _ Ho)), Hd in E.
    unfold store in E. injection E as <-.
    assert (Ho' : heap (set_heap (<[self := Object (obj_class o) (_values o)
                     (<[key := val]> (__dict__ o))]> (heap w)) w) !! self
                  = Some (Object (obj_class o) (_values o) (<[key := val]> (__dict__ o)))).
    { simpl. apply list_lookup_insert_eq. by eapply lookup_lt_Some. }
    exists val. split; [|split; [|split]].
    + rewrite (getattr_plain _ _ _ _ Ho') by done. simpl.
      by rewrite lookup_insert_eq.
    + done.
    + intros key' _ Hne. apply (getattr_same self key' o _ w _ Ho Ho'); [done|done|].
      simpl. by rewrite lookup_insert_ne.
    + split; [done|]. intros l o' Hne Hl. simpl.
      by rewrite list_lookup_insert_ne.
Qed.

(** X8.  An instance that the constructor has just returned is new, and no
    earlier instance has changed.  Its [id] reads [None] unless [id] was
    among the keywords; a declared field that was not among the keywords is
    unset, and reading it raises [KeyError]; a field given as keyword reads
    as the value given, unless that was an integer for a reference field. *)
Theorem new_instance_reads (fuel : nat) (cls : model) (kwargs : row)
    w (self : loc) w' :
  Model_new (dereference db_fetchall fuel) cls kwargs w = (Ok self, w') →
  heap w !! self = None ∧ frame w w' ∧
  ("id" ∉ kwargs.*1 → getattr self "id" w' = (Ok VNone, w')) ∧
  (∀ key, is_Some (class_descriptor cls key) → key ∉ kwargs.*1 → key ≠ "id" →
          getattr self key w' = (Raise KeyError, w')) ∧
  (NoDup kwargs.*1 →
   ∀ key val, (key, val) ∈ kwargs → is_Some (class_descriptor cls key) →
              coerced cls key val = false →
              getattr self key w' = (Ok val, w')).
Proof.
  intros E.
  destruct (Model_new_spec _ (dereference_sound fuel) _ _ _ _ _ E)
    as (Hself & Hf & o & Ho & Hcls & Hunset & Hset).
  split; [rewrite Hself; by apply lookup_ge_None_2|].
  split; [done|]. split; [|split].
  - intros Hid. apply (getattr_id self o); [done|].
    rewrite (Hunset _ Hid). apply lookup_singleton_eq.
  - intros key [f Hd] Hkey Hne.
    rewrite (getattr_descriptor _ _ o f) by (by rewrite ?Hcls).
    rewrite (Hunset _ Hkey). by rewrite lookup_singleton_ne.
  - intros Hnd key val Hin [f Hd] Hc.
    destruct (Hset Hnd key val f Hin Hd) as (x & Hx & Hs).
    unfold coerced in Hc. rewrite Hd in Hc. unfold stored in Hs.
    rewrite Hc in Hs. subst x.
    rewrite (getattr_descriptor _ _ o f) by (by rewrite ?Hcls).
    by rewrite Hx.
Qed.

(** X9.  Serialising a field value with [to_sql] and assigning the result
    to the same field of an instance gives the value back for a field that
    is not a reference.  For a reference to a saved instance it gives a
    reference to an instance of the referenced class, with the same
    identifier when the store answers by identifier; for a reference to an
    unsaved instance it gives [None]: the link is lost. *)
Theorem to_sql_then_set (fuel : nat) (f : Field) (self : loc) (o : object)
    (v s : pyval) w w' :
  heap w !! self = Some o →
  Field_to_sql f v w = (Ok s, w) →
  Field___set__ (dereference db_fetchall fuel) f self s w = (Ok tt, w') →
  ∃ x, (heap w' !! self ≫= λ o', _values o' !! name f) = Some x ∧
       (issubclass_Model (py_type f) = false → x = v) ∧
       (issubclass_Model (py_type f) = true →
        ∀ l t, v = VRef l → heap w !! l = Some t →
          (_values t !! "id" = Some VNone → x = VNone) ∧
          (∀ K, _values t !! "id" = Some (VInt K) →
                ∃ l' t', x = VRef l' ∧ heap w' !! l' = Some t' ∧
                         py_type f = PyModel (obj_class t') ∧
                         (answers_with_id db_fetchall (conn w) (obj_class t') K →
                          _values t' !! "id" = Some (VInt K)))).
Proof.
  intros Ho Hs E.
  destruct (Field_set_spec _ (dereference_sound fuel) _ _ _ _ _ _ Ho E)
    as (x & [Hc _] & Ho' & Hx).
  exists x. split; [|split].
  - rewrite Ho'. simpl. apply lookup_insert_eq.
  - intros Hm. unfold Field_to_sql in Hs. rewrite Hm in Hs.
    injection Hs as <-. unfold stored in Hx. by rewrite Hm in Hx.
  - intros Hm l t -> Hl. unfold Field_to_sql in Hs. rewrite Hm in Hs.
    unfold attr_id in Hs. split.
    + intros Hid. rewrite (Field_get_id l t VNone w Hl Hid) in Hs.
      injection Hs as <-. unfold stored in Hx. rewrite Hm in Hx. done.
    + intros K Hid. rewrite (Field_get_id l t (VInt K) w Hl Hid) in Hs.
      injection Hs as <-. unfold stored in Hx. rewrite Hm in Hx. simpl in Hx.
      destruct Hx as (l' & t' & -> & _ & Hl' & Ht' & Hans).
      exists l', t'. split; [done|]. split; [done|]. split; [done|].
      intros Ha. apply Hans; [done|]. by rewrite Hc.
Qed.

(** ** Saving, once more *)

Lemma load_inv (l : loc) w (r : res object) w' :
  load l w = (r, w') →
  w' = w ∧ (∀ o, r = Ok o → heap w !! l = Some o).
Proof.
  unfold load. destruct (heap w !! l) as [o|]; intros [= <- <-]; split; try done.
  by intros o' [= <-].
Qed.

Lemma sql_run_cases (stmt : string) (values : option params) w (r : res pyval) w' :
  sql_run db_execute stmt values w = (r, w') →
  let printed := set_stdout (stdout w ++ [Running stmt values]) w in
  (∃ db' v, db_execute (conn w) stmt (or_empty values) = Some (db', v) ∧
            r = Ok v ∧ w' = set_conn db' printed) ∨
  (db_execute (conn w) stmt (or_empty values) = None ∧
   r = Raise DatabaseError ∧ w' = printed).
Proof.
  unfold sql_run, print, execute, mbind, M_bind. simpl.
  destruct (db_execute _ _ _) as [[db' v]|]; intros [= <- <-]; [left|right]; eauto.
Qed.

Lemma setattr_id (deref : pytype → pyval → @M DB pyval) (self : loc)
    (val : pyval) (o : object) w :
  heap w !! self = Some o →
  setattr deref self "id" val w =
    (Ok tt,
     set_heap (<[self := Object (obj_class o) (<["id" := val]> (_values o))
                           (__dict__ o)]> (heap w)) w).
Proof.
  intros Ho. unfold setattr. rewrite (bind_ok _ _ _ _ _ (load_ok _ _ _ Ho)).
  unfold class_descriptor. rewrite decide_True by done.
  by rewrite (Field_set_plain _ Model_id self val o w).
Qed.

(** X10.  [save] never draws a token and never asks the store a question:
    whatever happens, the counter is where it was and at most one line has
    been printed, for a write.  It returns only after that write.  When it
    raises, no instance and no table has changed, so an instance whose
    insert failed still has no identifier.  It never changes another
    instance. *)
Theorem save_emits_one_write (fuel : nat) (self : loc) w (r : res unit) w' :
  Model_save db_execute db_fetchall fuel self w = (r, w') →
  counter w' = counter w ∧
  (stdout w' = stdout w ∨
   ∃ stmt values, stdout w' = (stdout w ++ [Running stmt (Some values)])%list) ∧
  (r = Ok tt →
   ∃ stmt values, stdout w' = (stdout w ++ [Running stmt (Some values)])%list) ∧
  (∀ e, r = Raise e → heap w' = heap w ∧ conn w' = conn w) ∧
  (∀ l o, l ≠ self → heap w !! l = Some o → heap w' !! l = Some o).
Proof.
  intros E. unfold Model_save in E.
  apply bind_inv in E as [(o & w1 & E1 & E)|(e & E1 & ->)];
    apply load_inv in E1 as [-> Ho]; [|by repeat split; auto].
  specialize (Ho o eq_refl).
  apply bind_inv in E as [(items & w1 & E1 & E)|(e & E1 & ->)];
    apply pure_saved_items in E1 as ->; [|by repeat split; auto].
  apply bind_inv in E as [(id & w1 & E1 & E)|(e & E1 & ->)];
    apply pure_getattr in E1 as ->; [|by repeat split; auto].
  destruct (truthy id).
  - apply bind_inv in E as [(id' & w1 & E1 & E)|(e & E1 & ->)];
      apply pure_getattr in E1 as ->; [|by repeat split; auto].
    apply bind_inv in E as [(v & w1 & E1 & E)|(e & E1 & ->)];
      apply sql_run_cases in E1 as [(db' & v' & _ & Hr & ->)|(_ & Hr & ->)];
      try discriminate Hr.
    + injection E as <- <-. split; [done|]. split; [right; eauto|].
      split; [eauto|]. split; [done|]. by intros.
    + split; [done|]. split; [right; eauto|]. split; [done|].
      split; [done|]. by intros.
  - apply bind_inv in E as [(v & w1 & E1 & E)|(e & E1 & ->)];
      apply sql_run_cases in E1 as [(db' & v' & _ & Hr & ->)|(_ & Hr & ->)];
      try discriminate Hr.
    + rewrite (setattr_id _ self v o) in E by done. injection E as <- <-.
      split; [done|]. split; [right; eauto|]. split; [eauto|].
      split; [done|]. intros l o' Hne Hl. simpl.
      by rewrite list_lookup_insert_ne.
    + split; [done|]. split; [right; eauto|]. split; [done|].
      split; [done|]. by intros.
Qed.




(** X12.  Saving twice, on a tidy instance whose serialised values are
    printable.  When the first [save] of an unsaved instance inserts it and
    the store reports a true, printable identifier, a second [save] runs an
    UPDATE that binds that identifier, and leaves the heap, and so the
    identifier, as the first [save] left it. *)
Theorem save_twice_keeps_identifier (fuel : nat) (self : loc) (o : object)
    (items items' : list (string * pyval)) (id : pyval) w
    (db' : DB) (lastrowid : pyval) :
  let cls := obj_class o in
  let insert :=
    "INSERT INTO " +:+ _name cls +:+ " ("
      +:+ join ", " ((λ col, col.1) <$> _cols cls)
      +:+ ") VALUES ("
      +:+ join ", " ((λ col, ":" +:+ col.1) <$> _cols cls)
      +:+ ")" in
  let update :=
    "UPDATE " +:+ _name cls +:+ " SET "
      +:+ join ", " ((λ col, col.1 +:+ " = :" +:+ col.1) <$> _cols cls)
      +:+ " WHERE id=:id" in
  let w1 :=
    set_heap (<[self := Object cls (<["id" := lastrowid]> (_values o))
                          (__dict__ o)]> (heap w))
      (set_conn db'
         (set_stdout (stdout w ++ [Running insert (Some (dict_of_items items))]) w)) in
  heap w !! self = Some o → tidy o = true →
  mapM (saved_item self) (_cols cls) w = (Ok items, w) →
  Forall (λ item, printable item.2 = true) items →
  _values o !! "id" = Some id → truthy id = false →
  db_execute (conn w) insert (dict_of_items items) = Some (db', lastrowid) →
  truthy lastrowid = true → printable lastrowid = true →
  mapM (saved_item self) (_cols cls) w1 = (Ok items', w1) →
  Forall (λ item, printable item.2 = true) items' →
  Model_save db_execute db_fetchall fuel self w = (Ok tt, w1) ∧
  Model_save db_execute db_fetchall fuel self w1 =
    (sql_run db_execute update
       (Some (dict_of_items items' ∪ {[ "id" := lastrowid ]})) ;; mret tt) w1 ∧
  heap (Model_save db_execute db_fetchall fuel self w1).2 = heap w1 ∧
  (heap w1 !! self ≫= λ o1, _values o1 !! "id") = Some lastrowid.
Proof.
  intros cls insert update w1 Ho _ Hitems _ Hid Ht Hdb Ht' _ Hitems' _.
  assert (Ho1 : heap w1 !! self
                = Some (Object cls (<["id" := lastrowid]> (_values o)) (__dict__ o))).
  { simpl. apply list_lookup_insert_eq. by eapply lookup_lt_Some. }
  split; [by apply (Model_save_insert fuel self o items id w db' lastrowid)|].
  destruct (Model_save_update fuel self _ items' lastrowid w1 Ho1 Hitems')
    as [Eu Hh]; [apply lookup_insert_eq | done |].
  split; [exact Eu|]. split; [exact Hh|].
  rewrite Ho1. simpl. apply lookup_insert_eq.
Qed.

(** X13.  A reference follows the instance it points to, a tidy instance
    whose serialised values are printable.  Serialising a reference to an
    unsaved instance gives the identifier it has, which is false; once that
    instance has been saved, serialising the same reference gives the
    identifier the store generated, with nothing assigned again on the side
    that holds the reference. *)
Theorem reference_follows_target (fuel : nat) (f : Field) (target : loc)
    (t : object) (items : list (string * pyval)) (id : pyval) w
    (db' : DB) (lastrowid : pyval) :
  let cls := obj_class t in
  let insert :=
    "INSERT INTO " +:+ _name cls +:+ " ("
      +:+ join ", " ((λ col, col.1) <$> _cols cls)
      +:+ ") VALUES ("
      +:+ join ", " ((λ col, ":" +:+ col.1) <$> _cols cls)
      +:+ ")" in
  issubclass_Model (py_type f) = true →
  heap w !! target = Some t → tidy t = true →
  mapM (saved_item target) (_cols cls) w = (Ok items, w) →
  Forall (λ item, printable item.2 = true) items →
  _values t !! "id" = Some id → truthy id = false →
  db_execute (conn w) insert (dict_of_items items) = Some (db', lastrowid) →
  Field_to_sql f (VRef target) w = (Ok id, w) ∧
  ∃ w1, Model_save db_execute db_fetchall fuel target w = (Ok tt, w1) ∧
        Field_to_sql f (VRef target) w1 = (Ok lastrowid, w1).
Proof.
  intros cls insert Hm Ht _ Hitems _ Hid Hfalse Hdb.
  split.
  - unfold Field_to_sql. rewrite Hm. by apply (Field_get_id target t).
  - eexists. split.
    + by apply (Model_save_insert fuel target t items id w db' lastrowid).
    + unfold Field_to_sql. rewrite Hm.
      eapply Field_get_id.
      * simpl. apply list_lookup_insert_eq. by eapply lookup_lt_Some.
      * simpl. apply lookup_insert_eq.
Qed.

Lemma saved_items_fail (self : loc) (cols : list (string * Field)) w :
  (∃ col e, col ∈ cols ∧ saved_item self col w = (Raise e, w)) →
  ∃ e, mapM (saved_item self) cols w = (Raise e, w).
Proof.
  induction cols as [|col0 cols IH]; intros (col & e & Hin & Hc).
  - by apply elem_of_nil in Hin.
  - simpl. destruct (saved_item self col0 w) as [[x|e0] w1] eqn:E0;
      pose proof (pure_saved_item _ _ _ _ _ E0) as ->.
    + rewrite (bind_ok _ _ _ _ _ E0).
      apply elem_of_cons in Hin as [->|Hin]; [congruence|].
      destruct IH as (e' & E'); [by exists col, e|].
      exists e'. by rewrite (bind_raise _ _ _ _ _ E').
    + exists e0. by rewrite (bind_raise _ _ _ _ _ E0).
Qed.

Lemma declared_has_descriptor (cls : model) (key : string) (t : pytype) :
  (key, t) ∈ __annotations__ cls → is_Some (class_descriptor cls key).
Proof.
  intros Hin. unfold class_descriptor. case_decide as Hk; [by eexists|].
  destruct (list_to_map (_cols cls) !! key) as [f|] eqn:E; [by eexists|].
  apply not_elem_of_list_to_map_2 in E. destruct E.
  rewrite cols_names. apply list_elem_of_fmap. by exists (key, t).
Qed.

(** X14.  [save] raises, and runs no statement, on an instance that has a
    declared field never assigned, and on an instance whose reference field
    holds something that is not an instance ([None], say, or an integer):
    the world is as it was. *)
Theorem save_incomplete_instance (fuel : nat) (self : loc) (o : object) w :
  heap w !! self = Some o →
  (∀ key t, (key, t) ∈ __annotations__ (obj_class o) →
            _values o !! key = None →
            ∃ e, Model_save db_execute db_fetchall fuel self w = (Raise e, w)) ∧
  (∀ key t v, (key, t) ∈ __annotations__ (obj_class o) →
              issubclass_Model t = true → _values o !! key = Some v →
              (∀ l, v ≠ VRef l) →
              ∃ e, Model_save db_execute db_fetchall fuel self w = (Raise e, w)).
Proof.
  intros Ho.
  assert (Hfail : ∀ col e, col ∈ _cols (obj_class o) →
            saved_item self col w = (Raise e, w) →
            ∃ e', Model_save db_execute db_fetchall fuel self w = (Raise e', w)).
  { intros col e Hin Hc.
    destruct (saved_items_fail self (_cols (obj_class o)) w) as (e' & E');
      [by exists col, e|].
    exists e'. unfold Model_save.
    rewrite (bind_ok _ _ _ _ _ (load_ok _ _ _ Ho)).
    by rewrite (bind_raise _ _ _ _ _ E'). }
  split.
  - intros key t Hin Hnone.
    destruct (declared_has_descriptor _ _ _ Hin) as [f Hd].
    apply (Hfail (key, MkField key t) KeyError).
    + unfold _cols. apply list_elem_of_fmap. by exists (key, t).
    + unfold saved_item.
      assert (Eg : getattr self key w = (Raise KeyError, w)).
      { rewrite (getattr_descriptor self key o f w Ho Hd). by rewrite Hnone. }
      by rewrite (bind_raise _ _ _ _ _ Eg).
  - intros key t v Hin Hm Hv Hnot.
    destruct (declared_has_descriptor _ _ _ Hin) as [f Hd].
    apply (Hfail (key, MkField key t) AttributeError).
    + unfold _cols. apply list_elem_of_fmap. by exists (key, t).
    + unfold saved_item.
      assert (Eg : getattr self key w = (Ok v, w)).
      { rewrite (getattr_descriptor self key o f w Ho Hd). by rewrite Hv. }
      rewrite (bind_ok _ _ _ _ _ Eg).
      assert (Et : Field_to_sql (MkField key t) v w = (Raise AttributeError, w)).
      { unfold Field_to_sql. simpl. rewrite Hm.
        destruct v; try done. by destruct (Hnot l). }
      by rewrite (bind_raise _ _ _ _ _ Et).
Qed.

(** ** Schema statements and the counter *)

Lemma pure_column_defs (cols : list (string * Field)) :
  pure (DB := DB) (mapM column_def cols).
Proof.
  induction cols as [|[n f] cols IH]; [by intros w r w' [= _ <-]|].
  apply pure_bind.
  - apply pure_bind; [by intros w r w' [= _ <-]|].
    intros t. by intros w r w' [= _ <-].
  - intros x. apply pure_bind; [apply IH|]. intros xs. by intros w r w' [= _ <-].
Qed.

(** X15.  Dropping and creating the table of a plain record class leave
    every instance and the counter as they were, whatever the store
    answers.  [delete] prints exactly one statement, [DROP TABLE IF EXISTS]
    on the table of the class with no parameters, and raises only when the
    store does; [create] prints at most one. *)
Theorem schema_statements_leave_state (cls : model) w :
  plain cls = true →
  (∀ r w', Model_delete db_execute cls w = (r, w') →
           heap w' = heap w ∧ counter w' = counter w ∧
           stdout w' =
             (stdout w ++ [Running ("DROP TABLE IF EXISTS " +:+ _name cls) None])%list ∧
           (r = Ok tt ∨ r = Raise DatabaseError)) ∧
  (∀ r w', Model_create db_execute cls w = (r, w') →
           heap w' = heap w ∧ counter w' = counter w ∧
           (stdout w' = stdout w ∨
            ∃ stmt, stdout w' = (stdout w ++ [Running stmt None])%list)).
Proof.
  intros Hp. split.
  - intros r w' E. unfold Model_delete in E.
    rewrite classmethod_found in E by (by apply plain_no_descriptor).
    apply bind_inv in E as [(v & w1 & E1 & E)|(e & E1 & ->)];
      apply sql_run_cases in E1 as [(db' & v' & _ & Hr & ->)|(_ & Hr & ->)];
      try discriminate Hr.
    + injection E as <- <-. repeat split; auto.
    + injection Hr as <-. repeat split; auto.
  - intros r w' E. unfold Model_create in E.
    rewrite classmethod_found in E by (by apply plain_no_descriptor).
    rewrite (plain_no_descriptor cls "_cols") in E by done.
    apply bind_inv in E as [(defs & w1 & E1 & E)|(e & E1 & ->)];
      apply pure_column_defs in E1 as ->; [|by repeat split; auto].
    apply bind_inv in E as [(v & w1 & E1 & E)|(e & E1 & ->)];
      apply sql_run_cases in E1 as [(db' & v' & _ & Hr & ->)|(_ & Hr & ->)];
      try discriminate Hr.
    + injection E as <- <-. repeat split; eauto.
    + repeat split; eauto.
Qed.

Lemma nr_Model_create (cls : model) : never_rewinds (Model_create db_execute cls).
Proof.
  apply nr_classmethod.
  destruct (class_descriptor cls "_cols"); [apply nr_raise|].
  apply nr_bind; [apply nr_pure, pure_column_defs|]. intros defs.
  apply nr_bind; [apply nr_sql_run|]. intros _. apply nr_ret.
Qed.

Lemma nr_Model_delete (cls : model) : never_rewinds (Model_delete db_execute cls).
Proof.
  apply nr_classmethod, nr_bind; [apply nr_sql_run|]. intros _. apply nr_ret.
Qed.

(** X16.  The counter only moves forward: assigning, constructing,
    selecting, saving, creating and dropping never leave it lower than they
    found it, whether they return or raise.  Together with the injectivity
    of the token names, a token drawn once is never drawn again. *)
Theorem counter_never_rewinds (fuel : nat) (cls : model) (kwargs : row)
    (where_ : option Condition) (self : loc) (key : string) (val : pyval) :
  never_rewinds (setattr (dereference db_fetchall fuel) self key val) ∧
  never_rewinds (Model_new (dereference db_fetchall fuel) cls kwargs) ∧
  never_rewinds (Model_select_next db_fetchall (dereference db_fetchall fuel) cls where_) ∧
  never_rewinds (Model_select_list db_fetchall (dereference db_fetchall fuel) cls where_) ∧
  never_rewinds (Model_save db_execute db_fetchall fuel self) ∧
  never_rewinds (Model_create db_execute cls) ∧
  never_rewinds (Model_delete db_execute cls) ∧
  (∀ n m, placeholder_of n = placeholder_of m → n = m).
Proof.
  pose proof (nr_dereference fuel) as Hd.
  split; [by apply nr_setattr|]. split; [by apply nr_Model_new|].
  split; [by apply nr_select_next|]. split; [by apply nr_select_list|].
  split; [apply nr_Model_save|]. split; [apply nr_Model_create|].
  split; [apply nr_Model_delete|]. apply placeholder_of_inj.
Qed.

End Facts.

(** * The mapper on the in-memory store *)

Lemma strip_prefix_app (p s : string) : strip_prefix p (p +:+ s) = Some s.
Proof. induction p as [|a p IH]; [done|]. simpl. by rewrite Ascii.eqb_refl. Qed.

Lemma until_space_speakers (s : string) :
  until_space ("speakers " +:+ s) = ("speakers", s).
Proof. reflexivity. Qed.

(** Whatever the token, the store answers a query by identifier on
    [speakers] with the rows of the table that carry the identifier. *)
Lemma demo_fetchall_speaker (n : N) (v : pyval) :
  demo_fetchall demo_tables (select_by_id Speaker n) {[ placeholder_of n := v ]}
  = Some (List.filter (has_id v) [jonathan]).
Proof.
  unfold demo_fetchall.
  change (select_by_id Speaker n)
    with ("SELECT * FROM "
            +:+ ("speakers " +:+ ("WHERE " +:+ ("id = :" +:+ placeholder_of n)))).
  rewrite strip_prefix_app. cbv beta iota delta [mbind option_bind].
  rewrite until_space_speakers.
  change ((list_to_map demo_tables : gmap string (list row)) !! "speakers")
    with (Some [jonathan]).
  cbv beta iota. rewrite !strip_prefix_app.
  by rewrite lookup_singleton_eq.
Qed.

Lemma demo_answers_speaker (K : Z) :
  answers_with_id demo_fetchall demo_tables Speaker K.
Proof.
  intros n rows r H Hin. rewrite demo_fetchall_speaker in H. injection H as <-.
  simpl in Hin. unfold has_id in Hin.
  change ((list_to_map jonathan : gmap string pyval) !! "id")
    with (Some (VInt 1)) in Hin.
  cbv beta iota in Hin.
  destruct (Z.eqb_spec 1 K) as [<-|]; [|by apply elem_of_nil in Hin].
  apply list_elem_of_singleton in Hin as ->. split.
  - by apply (bool_decide_unpack _).
  - by left.
Qed.

Lemma demo_complete_talk : complete demo_fetchall demo_tables 1 Talk talk_row.
Proof.
  split; [by repeat constructor|]. split; [by apply (bool_decide_unpack _)|].
  intros key val f tgt Hin Hd Ht Hi n.
  assert (key = "speaker" ∧ val = VInt 1) as [-> ->].
  { unfold talk_row in Hin.
    repeat (apply elem_of_cons in Hin as [[= -> ->]|Hin]);
      try (by apply elem_of_nil in Hin);
      try (vm_compute in Hd; injection Hd as <-; discriminate Ht).
    done. }
  vm_compute in Hd. injection Hd as <-. injection Ht as <-.
  exists jonathan, []. split; [by rewrite demo_fetchall_speaker|].
  split; [by repeat constructor|]. split; [by apply (bool_decide_unpack _)|].
  intros k v g Hk Hg.
  unfold jonathan in Hk.
  repeat (apply elem_of_cons in Hk as [[= -> ->]|Hk]);
    try (by apply elem_of_nil in Hk);
    vm_compute in Hg; by injection Hg as <-.
Qed.

(** ** Concrete runs *)

(** C2, as stated, fails: lowering [duration = 60 OR duration = 45] gives the
    two texts joined by [OR] with no parentheses around either side. *)
Lemma to_sql_bool_no_parentheses :
  ∃ sql1 vals1 w1 sql2 vals2 w2 vals,
    Condition_to_sql (Cond "=" duration (VInt 60)) (demo_world [])
      = (Ok (sql1, vals1), w1) ∧
    Condition_to_sql (Cond "=" duration (VInt 45)) w1 = (Ok (sql2, vals2), w2) ∧
    Condition_to_sql
      (Condition___or__ (Field___eq__ duration (VInt 60))
                        (Field___eq__ duration (VInt 45)))
      (demo_world [])
      = (Ok ("duration = :var0 OR duration = :var1", vals), w2) ∧
    "duration = :var0 OR duration = :var1"
      ≠ "(" +:+ sql1 +:+ ") OR (" +:+ sql2 +:+ ")".
Proof.
  eexists _, _, _, _, _, _, _.
  split; [reflexivity|]. split; [reflexivity|]. split; [reflexivity|].
  vm_compute. discriminate.
Qed.

(** C3, as stated, fails: a speaker that was never saved has [None] as its
    [id], and serialising a reference to it returns that [None]; nothing is
    raised. *)
Lemma to_sql_unsaved_reference_is_none :
  ∃ me w1,
    Model_new (dereference demo_fetchall 1) Speaker
      [("name", VStr "Jonathan"); ("company", VStr "solute")] (demo_world [])
      = (Ok me, w1) ∧
    (heap w1 !! me ≫= λ o, _values o !! "id") = Some VNone ∧
    Field_to_sql speaker (VRef me) w1 = (Ok VNone, w1).
Proof.
  eexists _, _. split; [vm_compute; reflexivity|].
  split; vm_compute; reflexivity.
Qed.

(** A plain value comes back as it is; a reference to a saved speaker gives
    the speaker's identifier. *)
Lemma Field_to_sql_returns_identifier_witness :
  Field_to_sql duration (VInt 45) (demo_world [new_talk])
    = (Ok (VInt 45), demo_world [new_talk]) ∧
  Field_to_sql speaker (VRef 0) (demo_world [Object Speaker {[ "id" := VInt 7 ]} ∅])
    = (Ok (VInt 7), demo_world [Object Speaker {[ "id" := VInt 7 ]} ∅]).
Proof.
  split.
  - apply (Field_to_sql_returns_identifier duration (VInt 45)). reflexivity.
  - eapply (proj2 (Field_to_sql_returns_identifier speaker (VRef 0) _));
      reflexivity.
Defined.

(** C4 fails on the code at an identifier that is set but false.  A speaker
    constructed with [id=0] holds the identifier 0; [save] on it runs an
    INSERT, not an UPDATE, and replaces the identifier by the one the store
    generates. *)
Theorem save_zero_id_inserts :
  ∃ me w1 w2,
    Model_new (dereference demo_fetchall 1) Speaker
      [("id", VInt 0); ("name", VStr "Jonathan"); ("company", VStr "solute")]
      (demo_world [])
      = (Ok me, w1) ∧
    (heap w1 !! me ≫= λ o, _values o !! "id") = Some (VInt 0) ∧
    Model_save demo_execute demo_fetchall 1 me w1 = (Ok tt, w2) ∧
    stdout w2 =
      [Running "INSERT INTO speakers (name, company) VALUES (:name, :company)"
         (Some {[ "name" := VStr "Jonathan"; "company" := VStr "solute" ]})] ∧
    (heap w2 !! me ≫= λ o, _values o !! "id") = Some (VInt 7).
Proof.
  eexists _, _, _. split; [vm_compute; reflexivity|].
  split; [vm_compute; reflexivity|].
  split; [vm_compute; reflexivity|].
  split; vm_compute; reflexivity.
Qed.

(** The column types of a reference, of [int], of [str], and the failure on
    [float]. *)
Lemma sql_type_cases_witness :
  Field_sql_type speaker = Ok "INTEGER" ∧
  Field_sql_type duration = Ok "INTEGER" ∧
  Field_sql_type (MkField "title" str) = Ok "TEXT" ∧
  Field_sql_type (MkField "amount" (PyClass "float")) = Raise KeyError.
Proof.
  split; [apply (proj1 (sql_type_cases speaker)); reflexivity|].
  split; [apply (proj1 (proj2 (sql_type_cases duration))); reflexivity|].
  split.
  - apply (proj1 (proj2 (proj2 (sql_type_cases (MkField "title" str))))).
    reflexivity.
  - apply (proj2 (proj2 (proj2 (sql_type_cases (MkField "amount" (PyClass "float"))))));
      [reflexivity | discriminate | discriminate].
Defined.

(** The statement that creates the table of talks, and the failure on a
    class with a [float] field. *)
Lemma create_statement_witness :
  _name Talk = "talks" ∧
  stdout (Model_create demo_execute Talk (demo_world [])).2 =
    [Running
       "CREATE TABLE talks (id INTEGER PRIMARY KEY, title TEXT, duration INTEGER, speaker INTEGER)"
       None] ∧
  Model_create demo_execute Price (demo_world []) = (Raise KeyError, demo_world []).
Proof.
  split; [reflexivity|]. split.
  - apply (create_statement demo_execute Talk (demo_world []) eq_refl).
    + by apply (bool_decide_unpack _).
    + repeat constructor; by apply (bool_decide_unpack _).
    + repeat constructor; (by left) || (right; by left) || (right; by right).
  - apply (create_statement demo_execute Price (demo_world []) eq_refl).
    + by apply (bool_decide_unpack _).
    + repeat constructor; by apply (bool_decide_unpack _).
    + apply Exists_cons_hd. intros [H|[H|H]]; discriminate H.
Defined.

(** C8, as stated, fails on a record class with a declared field called
    [_name], [_cols] or [create].  With [_name] the table name is the text
    of a descriptor, not the class name in lower case; with [_cols] and
    with [create], creating the table raises and no statement is run. *)
Lemma create_hidden_attributes :
  _name Weird ≠ lower (__name__ Weird) +:+ "s" ∧
  stdout (Model_create demo_execute Weird (demo_world [])).2 =
    [Running
       "CREATE TABLE <orm.Field object at 0x7f3c5e1d2a90> (id INTEGER PRIMARY KEY, _name TEXT)"
       None] ∧
  Model_create demo_execute Ledger (demo_world [])
    = (Raise AttributeError, demo_world []) ∧
  Model_create demo_execute Job (demo_world [])
    = (Raise TypeError, demo_world []).
Proof.
  split; [vm_compute; discriminate|].
  split; [vm_compute; reflexivity|].
  split; vm_compute; reflexivity.
Qed.

(** Assigning the identifier 5, which no speaker has, and assigning the
    identifier 1 on a store where two speakers have it. *)
Lemma set_reference_lookup_witness :
  (∃ w', Field___set__ (dereference demo_fetchall 1) speaker 0 (VInt 5)
           (demo_world [new_talk]) = (Raise StopIteration, w') ∧
         heap w' = [new_talk]) ∧
  (∃ w2, Field___set__ (dereference demo_fetchall 1) speaker 0 (VInt 1)
           (World 0 [new_talk] demo_twins [])
         = (Ok tt, w2) ∧
         heap w2 = [Object Talk {[ "id" := VNone; "speaker" := VRef 1 ]} ∅;
                    Object Speaker
                      {[ "id" := VInt 1; "name" := VStr "Jonathan";
                         "company" := VStr "solute" ]} ∅]).
Proof.
  split.
  - destruct (set_reference_lookup demo_fetchall 0 speaker Speaker 0 (VInt 5)
                (demo_world [new_talk]) eq_refl eq_refl eq_refl) as [Hmissing _].
    destruct (Hmissing eq_refl) as (w' & E & Hheap & _).
    exists w'. split; [exact E | exact Hheap].
  - destruct (set_reference_lookup demo_fetchall 0 speaker Speaker 0 (VInt 1)
                (World 0 [new_talk] demo_twins []) eq_refl eq_refl eq_refl)
      as [_ Hfirst].
    eexists. split.
    + eapply Hfirst; [reflexivity | reflexivity | reflexivity | vm_compute; reflexivity].
    + vm_compute. reflexivity.
Defined.

(** Constructing a talk from its row: the speaker column ends up holding a
    reference to a speaker with identifier 1. *)
Lemma set_resolves_reference_witness :
  ∃ self w' o l t,
    Model_new (dereference demo_fetchall 1) Talk talk_row (demo_world [])
      = (Ok self, w') ∧
    heap w' !! self = Some o ∧ _values o !! "speaker" = Some (VRef l) ∧
    heap w' !! l = Some t ∧ obj_class t = Speaker ∧
    _values t !! "id" = Some (VInt 1).
Proof.
  destruct (set_resolves_reference demo_fetchall 0 (demo_world []))
    as (_ & _ & Hrow & Hreturns).
  destruct (Hreturns Talk talk_row eq_refl demo_complete_talk) as (self & w' & E).
  destruct (Hrow Talk talk_row self w' "speaker" 1%Z speaker Speaker eq_refl
              ltac:(by repeat constructor) E)
    as (o & l & t & Ho & Hl & Ht & Hcls & Hid);
    [by apply (bool_decide_unpack _) | by do 3 right; left | reflexivity | reflexivity |].
  exists self, w', o, l, t.
  repeat (split; [assumption|]). apply Hid, demo_answers_speaker.
Defined.

(** The scenario of the demonstration: selecting the talks of 60 or 45
    minutes gives one talk, whose speaker is an instance with identifier 1. *)
Example select_talks :
  ∃ w' talk spk,
    Model_select_list demo_fetchall (dereference demo_fetchall 1) Talk
      (Some (Condition___or__ (Field___eq__ duration (VInt 60))
                              (Field___eq__ duration (VInt 45))))
      (demo_world [])
      = (Ok [VRef talk], w') ∧
    (heap w' !! talk ≫= λ o, _values o !! "duration") = Some (VInt 60) ∧
    (heap w' !! talk ≫= λ o, _values o !! "speaker") = Some (VRef spk) ∧
    (heap w' !! spk ≫= λ o, _values o !! "name") = Some (VStr "Jonathan") ∧
    (heap w' !! spk ≫= λ o, _values o !! "id") = Some (VInt 1).
Proof.
  eexists _, _, _. split; [vm_compute; reflexivity|].
  split; [vm_compute; reflexivity|].
  split; [vm_compute; reflexivity|].
  split; vm_compute; reflexivity.
Qed.

(** ** Concrete runs of the further properties *)

(** A chain of three comparisons. *)
Lemma to_sql_or_chain_witness :
  ∃ vals w',
    Condition_to_sql three_way (demo_world []) =
      (Ok ("duration = :var0 OR duration = :var1 OR title = :var2", vals), w').
Proof.
  destruct (to_sql_or_chain three_way (demo_world []) eq_refl) as (vals & w' & E).
  exists vals, w'. exact E.
Defined.

(** Selecting every talk. *)
Lemma select_statement_witness :
  Model_select_rows demo_fetchall Talk None (demo_world []) =
    (Ok [talk_row],
     set_stdout [Selecting "SELECT * FROM talks WHERE 1=1" (Some ∅)] (demo_world [])).
Proof.
  rewrite (proj1 (select_statement demo_fetchall Talk (demo_world []) eq_refl)).
  vm_compute. reflexivity.
Defined.


(** A talk row whose speaker is not in the store: [list] raises
    [RuntimeError]. *)
Lemma select_stop_iteration_witness :
  ∃ w', Model_select_list demo_fetchall (dereference demo_fetchall 1) Talk None
          (World 0 [] demo_dangling []) = (Raise RuntimeError, w').
Proof.
  eexists.
  eapply (proj2 (proj2 (select_stop_iteration demo_fetchall
                          (dereference demo_fetchall 1) Talk None
                          (World 0 [] demo_dangling []))));
    vm_compute; reflexivity.
Defined.

(** Assigning a duration and reading it back. *)
Lemma setattr_then_getattr_witness :
  getattr 0 "duration"
    (setattr (dereference demo_fetchall 1) 0 "duration" (VInt 45)
       (demo_world [new_talk])).2
  = (Ok (VInt 45),
     (setattr (dereference demo_fetchall 1) 0 "duration" (VInt 45)
        (demo_world [new_talk])).2).
Proof.
  destruct (setattr_then_getattr demo_fetchall 1 0 "duration" (VInt 45) new_talk
              (demo_world [new_talk])
              (setattr (dereference demo_fetchall 1) 0 "duration" (VInt 45)
                 (demo_world [new_talk])).2)
    as (x & Hg & Hx & _);
    [reflexivity | reflexivity | reflexivity | vm_compute; reflexivity |].
  rewrite (Hx eq_refl) in Hg. exact Hg.
Defined.

(** A speaker constructed with a name only: no identifier, no company. *)
Lemma new_instance_reads_witness :
  ∃ self w',
    Model_new (dereference demo_fetchall 1) Speaker [("name", VStr "Jonathan")]
      (demo_world []) = (Ok self, w') ∧
    getattr self "id" w' = (Ok VNone, w') ∧
    getattr self "company" w' = (Raise KeyError, w') ∧
    getattr self "name" w' = (Ok (VStr "Jonathan"), w').
Proof.
  eexists 0, _. split; [vm_compute; reflexivity|].
  destruct (new_instance_reads demo_fetchall 1 Speaker [("name", VStr "Jonathan")]
              (demo_world []) 0 _ ltac:(vm_compute; reflexivity))
    as (_ & _ & Hid & Hunset & Hset).
  split; [apply Hid; by apply (bool_decide_unpack _)|]. split.
  - apply Hunset; [by eexists | by apply (bool_decide_unpack _) | done].
  - apply Hset; [by apply (bool_decide_unpack _) | by left | by eexists | done].
Defined.

(** A talk that refers to a saved speaker: serialising the reference gives
    1, and assigning 1 gives a reference to a speaker with identifier 1. *)
Lemma to_sql_then_set_witness :
  ∃ x l' t',
    (heap (Field___set__ (dereference demo_fetchall 1) speaker 0 (VInt 1)
             (demo_world [new_talk; saved_speaker])).2 !! 0
       ≫= λ o', _values o' !! "speaker") = Some x ∧
    x = VRef l' ∧
    heap (Field___set__ (dereference demo_fetchall 1) speaker 0 (VInt 1)
            (demo_world [new_talk; saved_speaker])).2 !! l' = Some t' ∧
    _values t' !! "id" = Some (VInt 1).
Proof.
  destruct (to_sql_then_set demo_fetchall 1 speaker 0 new_talk (VRef 1) (VInt 1)
              (demo_world [new_talk; saved_speaker])
              (Field___set__ (dereference demo_fetchall 1) speaker 0 (VInt 1)
                 (demo_world [new_talk; saved_speaker])).2)
    as (x & Hx & _ & Href);
    [reflexivity | vm_compute; reflexivity | vm_compute; reflexivity |].
  destruct (Href eq_refl 1 saved_speaker eq_refl eq_refl) as [_ Hsaved].
  destruct (Hsaved 1%Z eq_refl) as (l' & t' & -> & Hl' & Hcls & Hid).
  exists (VRef l'), l', t'. split; [exact Hx|]. split; [done|]. split; [exact Hl'|].
  apply Hid. injection Hcls as <-. apply demo_answers_speaker.
Defined.

(** Saving an unsaved speaker: one line printed, the counter untouched. *)
Lemma save_emits_one_write_witness :
  counter (Model_save demo_execute demo_fetchall 1 0
             (demo_world [unsaved_speaker])).2 = 0%N ∧
  ∃ stmt values,
    stdout (Model_save demo_execute demo_fetchall 1 0
              (demo_world [unsaved_speaker])).2
    = ([] ++ [Running stmt (Some values)])%list.
Proof.
  destruct (save_emits_one_write demo_execute demo_fetchall 1 0
              (demo_world [unsaved_speaker]) (Ok tt)
              (Model_save demo_execute demo_fetchall 1 0
                 (demo_world [unsaved_speaker])).2)
    as (Hc & _ & Hok & _); [vm_compute; reflexivity|].
  split; [exact Hc | exact (Hok eq_refl)].
Defined.


(** Saving the unsaved speaker twice: the second save keeps the identifier
    7 that the first one got. *)
Lemma save_twice_keeps_identifier_witness :
  ∃ w1,
    Model_save demo_execute demo_fetchall 1 0 (demo_world [unsaved_speaker])
      = (Ok tt, w1) ∧
    heap (Model_save demo_execute demo_fetchall 1 0 w1).2 = heap w1 ∧
    (heap w1 !! 0 ≫= λ o1, _values o1 !! "id") = Some (VInt 7).
Proof.
  destruct (save_twice_keeps_identifier demo_execute demo_fetchall 1 0
              unsaved_speaker
              [("name", VStr "Jonathan"); ("company", VStr "solute")]
              [("name", VStr "Jonathan"); ("company", VStr "solute")]
              VNone (demo_world [unsaved_speaker]) demo_tables (VInt 7))
    as (E1 & _ & Hh & Hid);
    [reflexivity | reflexivity | vm_compute; reflexivity
    | by repeat constructor | reflexivity | reflexivity
    | reflexivity | reflexivity | reflexivity | vm_compute; reflexivity
    | by repeat constructor |].
  eexists. split; [exact E1|]. split; [exact Hh | exact Hid].
Defined.

(** A talk holds a reference to the unsaved speaker; after the speaker is
    saved the reference serialises to 7. *)
Lemma reference_follows_target_witness :
  Field_to_sql speaker (VRef 0) (demo_world [unsaved_speaker])
    = (Ok VNone, demo_world [unsaved_speaker]) ∧
  ∃ w1,
    Model_save demo_execute demo_fetchall 1 0 (demo_world [unsaved_speaker])
      = (Ok tt, w1) ∧
    Field_to_sql speaker (VRef 0) w1 = (Ok (VInt 7), w1).
Proof.
  apply (reference_follows_target demo_execute demo_fetchall 1 speaker 0
           unsaved_speaker
           [("name", VStr "Jonathan"); ("company", VStr "solute")]
           VNone (demo_world [unsaved_speaker]) demo_tables (VInt 7));
    [reflexivity | reflexivity | reflexivity | vm_compute; reflexivity
    | by repeat constructor | reflexivity | reflexivity | reflexivity].
Defined.

(** A talk with no title cannot be saved. *)
Lemma save_incomplete_instance_witness :
  ∃ e, Model_save demo_execute demo_fetchall 1 0 (demo_world [new_talk])
       = (Raise e, demo_world [new_talk]).
Proof.
  apply (proj1 (save_incomplete_instance demo_execute demo_fetchall 1 0 new_talk
                  (demo_world [new_talk]) eq_refl) "title" str);
    [by left | reflexivity].
Defined.

(** Dropping the table of talks. *)
Lemma schema_statements_leave_state_witness :
  stdout (Model_delete demo_execute Talk (demo_world [])).2 =
    [Running "DROP TABLE IF EXISTS talks" None].
Proof.
  destruct (schema_statements_leave_state demo_execute Talk (demo_world []) eq_refl)
    as [Hdelete _].
  destruct (Hdelete _ _ (surjective_pairing _)) as (_ & _ & Hout & _).
  exact Hout.
Defined.
